(** * sensors.py: ultrasonic ranger, analog sensor bank and telemetry loop

    A shallow embedding of [src/sensors.py] (MicroPython, ESP32).

    - Python integers are [Z]; [//] is floor division ([Z.div]).
    - The float that [distance_cm] returns is a binary floating-point
      number ([Ieee.distance_cm], in the 32-bit format of MicroPython and
      in the 64-bit format of CPython); [HCSR04.distance_cm] is the exact
      value of the same expression.
    - The fractions of the analog readers are exact rationals [Q].  The
      only float comparisons of the program compare [(raw - c) / d] for an
      integer [raw] with the literals 0.0, 0.2, ..., 1.0; lemma
      [fraction_off_breakpoints] shows that such a quotient
      is either exactly 0, exactly 1, or at least [1 / (5 * d)] away from
      every breakpoint, far more than the rounding error of binary
      floating point, so the comparisons agree with the exact ones.
    - Exceptions are an explicit [result] type; [try/except] is a match on
      the raised exception.
    - The hardware and the network are oracles: every call into
      [machine], [ads1115], [network] or [urequests] receives its outcome
      from the environment of the run. *)

From Stdlib Require Import ZArith QArith Qround Qabs List String Ascii Bool Lia.
From Stdlib Require Import SpecFloat.
Import ListNotations.
Open Scope Z_scope.

(** ** Python values, exceptions and the error monad *)

Module Py.

(** [args[0]] of an [OSError]: an errno, as MicroPython's ports raise it,
    or a message, as [OSError('Out of range')]. *)
Inductive os_arg : Type :=
| Errno (n : Z)
| Msg (s : string).

Inductive exn : Type :=
| OSError (arg : os_arg)
| IndexError
| KeyError
| AttributeError
| ValueError
| TypeError
| KeyboardInterrupt.

Inductive result (A : Type) : Type :=
| Ok (a : A)
| Raise (e : exn).
Arguments Ok {A} a.
Arguments Raise {A} e.

Definition bind {A B} (r : result A) (f : A -> result B) : result B :=
  match r with
  | Ok a => f a
  | Raise e => Raise e
  end.

(** The numbers that end up in a telemetry record: Python keeps [int] and
    [float] apart ([-1.0] is a float, a bucket label is an int). *)
Inductive pyval : Type :=
| PInt (z : Z)
| PFloat (q : Q).

(** Numeric value, as Python's [==] compares an int with a float. *)
Definition num (v : pyval) : Q :=
  match v with
  | PInt z => inject_Z z
  | PFloat q => q
  end.

Definition is_OSError (e : exn) : bool :=
  match e with
  | OSError _ => true
  | _ => false
  end.

End Py.
Import Py.

Declare Scope py_scope.
Delimit Scope py_scope with py.
Notation "x <- c ;; k" := (bind c (fun x => k))
  (at level 61, c at next level, right associativity) : py_scope.
Open Scope py_scope.

(** ** class HCSR04 *)

Module HCSR04.

(** [echo_timeout_us=500*2*30] *)
Definition default_echo_timeout_us : Z := 500 * 2 * 30.

Record t : Type := {
  trigger_pin : Z;
  echo_pin : Z;
  echo_timeout_us : Z
}.

Definition init (trigger echo : Z) : t :=
  {| trigger_pin := trigger; echo_pin := echo;
     echo_timeout_us := default_echo_timeout_us |}.

Definition ETIMEDOUT : Z := 110.

(** What [machine.time_pulse_us(self.echo, 1, self.echo_timeout_us)] can do:
    return the width of the echo pulse in microseconds, raise
    [OSError(errno)] (the firmware raises with an errno, [ETIMEDOUT] when
    no transition completes within the timeout), or be interrupted from
    the console. *)
Inductive pulse_outcome : Type :=
| Echo (pulse_time : Z)
| PulseOSError (errno : Z)
| PulseInterrupt.

(** The error the driver raises for a timeout: [OSError('Out of range')]. *)
Definition OutOfRange : exn := OSError (Msg "Out of range").

(** [_send_pulse_and_wait]: the writes to the trigger pin (low, 5us, high,
    10us, low) do not influence the value; the outcome of the pulse wait is
    [hw].
    [[
        try:
            pulse_time = machine.time_pulse_us(...)
            return pulse_time
        except OSError as ex:
            if ex.args[0] == 110: raise OSError('Out of range')
            raise ex
    ]] *)
Definition _send_pulse_and_wait (self : t) (hw : pulse_outcome) : result Z :=
  match hw with
  | Echo pulse_time => Ok pulse_time
  | PulseOSError errno =>
      if errno =? ETIMEDOUT then Raise OutOfRange
      else Raise (OSError (Errno errno))
  | PulseInterrupt => Raise KeyboardInterrupt
  end.

(** [mm = pulse_time * 100 // 582] *)
Definition distance_mm (self : t) (hw : pulse_outcome) : result Z :=
  pulse_time <- _send_pulse_and_wait self hw ;;
  Ok (pulse_time * 100 / 582).

(** [cms = (pulse_time / 2) / 29.1], as a rational: the exact value of the
    expression, of which the float the code returns ([Ieee.distance_cm])
    is a rounding. *)
Definition distance_cm (self : t) (hw : pulse_outcome) : result Q :=
  pulse_time <- _send_pulse_and_wait self hw ;;
  Ok ((inject_Z pulse_time / 2) / (291 # 10))%Q.

(** The exception a low-level fault of the pulse wait carries. *)
Definition fault_exn (hw : pulse_outcome) : option exn :=
  match hw with
  | Echo _ => None
  | PulseOSError errno => Some (OSError (Errno errno))
  | PulseInterrupt => Some KeyboardInterrupt
  end.

End HCSR04.

(** ** class AnalogReader *)

Module AnalogReader.

(** The two ADS1115 converters, [self.adc_1] and [self.adc_2]. *)
Inductive device : Type :=
| adc_1
| adc_2.

(** The outcome of [adc.read(4, channel)] on each converter during one call
    of [read_sensor_values]: the raw register value or an exception. *)
Definition adc_oracle : Type := device -> nat -> result Z.

Record t : Type := {
  addr_1 : Z;
  addr_2 : Z;
  layout : list ascii
}.

(** The role queues [light], [voltage], [other]. *)
Record queues : Type := {
  light : list pyval;
  voltage : list pyval;
  other : list pyval
}.

Definition no_readings : queues :=
  {| light := []; voltage := []; other := [] |}.

Definition buckets : list Z := [0; 20; 40; 80; 160; 220].

(** [[0.0, 0.2, 0.4, 0.6, 0.8, 1.0]] *)
Definition breakpoints : list Q :=
  [0; 2 # 10; 4 # 10; 6 # 10; 8 # 10; 1]%Q.

(** Python's [max] of a list: [ValueError] on the empty list. *)
Definition py_max (l : list Z) : result Z :=
  match l with
  | [] => Raise ValueError
  | x :: xs => Ok (fold_left Z.max xs x)
  end.

(** [[n for n, p in zip(buckets, [0.0, ..., 1.0]) if raw >= p]] *)
Definition labels_reached (raw : Q) : list Z :=
  map fst (filter (fun np => Qle_bool (snd np) raw) (combine buckets breakpoints)).

(** [max([n for n, p in zip(...) if raw >= p] + [0])] *)
Definition bucket (raw : Q) : result Z :=
  py_max (labels_reached raw ++ [0]).

(** [try: body  except OSError: handler] *)
Definition try_except_OSError {A} (body handler : result A) : result A :=
  match body with
  | Raise (OSError _) => handler
  | r => r
  end.

Definition light_fraction (v : Z) : Q := (inject_Z (v - 335) / 30483)%Q.
Definition voltage_fraction (v : Z) : Q := (inject_Z (v - 5169) / 27067)%Q.

Definition read_light_sensor (adc : nat -> result Z) (channel : nat) : result pyval :=
  try_except_OSError
    (v <- adc channel ;;
     n <- bucket (light_fraction v) ;;
     Ok (PInt n))
    (Ok (PFloat (-1))).

Definition read_voltage_sensor (adc : nat -> result Z) (channel : nat) : result pyval :=
  try_except_OSError
    (v <- adc channel ;;
     n <- bucket (voltage_fraction v) ;;
     Ok (PInt n))
    (Ok (PFloat (-1))).

Definition read_other_sensor (adc : nat -> result Z) (channel : nat) : result pyval :=
  try_except_OSError
    (v <- adc channel ;; Ok (PInt v))
    (Ok (PFloat (-1))).

(** [enumerate(s)] *)
Definition enumerate {A} (s : list A) : list (nat * A) :=
  combine (seq 0 (List.length s)) s.

(** A [for] loop whose body may raise: the first exception leaves the loop. *)
Fixpoint for_each {S X} (body : S -> X -> result S) (xs : list X) (s : S) : result S :=
  match xs with
  | [] => Ok s
  | x :: rest => s' <- body s x ;; for_each body rest s'
  end.

(** The body of both acquisition loops:
    [[
      if c == "l": light.append(read_light_sensor(adc, i))
      elif c == "v": voltage.append(read_voltage_sensor(adc, i))
      else: other.append(read_other_sensor(adc, i))
    ]] *)
Definition acquire (adc : nat -> result Z) (q : queues) (ic : nat * ascii) : result queues :=
  let '(i, c) := ic in
  if Ascii.eqb c "l" then
    r <- read_light_sensor adc i ;;
    Ok {| light := light q ++ [r]; voltage := voltage q; other := other q |}
  else if Ascii.eqb c "v" then
    r <- read_voltage_sensor adc i ;;
    Ok {| light := light q; voltage := voltage q ++ [r]; other := other q |}
  else
    r <- read_other_sensor adc i ;;
    Ok {| light := light q; voltage := voltage q; other := other q ++ [r] |}.

(** [q.pop(0) if q else 0.0]: the value and what is left of the queue. *)
Definition pop_or_zero (q : list pyval) : pyval * list pyval :=
  match q with
  | x :: rest => (x, rest)
  | [] => (PFloat 0, [])
  end.

(** The body of the output loop, on the queues and [data]. *)
Definition emit (st : queues * list pyval) (o : ascii) : queues * list pyval :=
  let '(q, data) := st in
  if Ascii.eqb o "l" then
    let '(x, rest) := pop_or_zero (light q) in
    ({| light := rest; voltage := voltage q; other := other q |}, data ++ [x])
  else if Ascii.eqb o "v" then
    let '(x, rest) := pop_or_zero (voltage q) in
    ({| light := light q; voltage := rest; other := other q |}, data ++ [x])
  else
    let '(x, rest) := pop_or_zero (other q) in
    ({| light := light q; voltage := voltage q; other := rest |}, data ++ [x]).

(** The two acquisition loops: [self.layout[:4]] on [adc_1], then
    [self.layout[4:]] on [adc_2]. *)
Definition read_queues (self : t) (hw : adc_oracle) : result queues :=
  q <- for_each (acquire (hw adc_1)) (enumerate (firstn 4 (layout self))) no_readings ;;
  for_each (acquire (hw adc_2)) (enumerate (skipn 4 (layout self))) q.

Definition read_sensor_values (self : t) (hw : adc_oracle) (order : list ascii)
  : result (list pyval) :=
  q <- read_queues self hw ;;
  Ok (snd (fold_left emit order (q, []))).

(** *** The specification's reading of the same operations *)

(** A role-tag. *)
Inductive role : Type :=
| Light
| Voltage
| Generic.

Definition role_of (c : ascii) : role :=
  if Ascii.eqb c "l" then Light
  else if Ascii.eqb c "v" then Voltage
  else Generic.

(** The physical read order: device A channels 0.., then device B
    channels 0.., each with the role character of the layout. *)
Definition physical_order (self : t) : list (device * nat * ascii) :=
  map (fun ic => (adc_1, fst ic, snd ic)) (enumerate (firstn 4 (layout self)))
  ++ map (fun ic => (adc_2, fst ic, snd ic)) (enumerate (skipn 4 (layout self))).

(** The calibrated value of a raw register value in a role. *)
Definition calibrated (r : role) (v : Z) : result pyval :=
  match r with
  | Light => n <- bucket (light_fraction v) ;; Ok (PInt n)
  | Voltage => n <- bucket (voltage_fraction v) ;; Ok (PInt n)
  | Generic => Ok (PInt v)
  end.

(** The reading of one channel: the sentinel on a bus fault. *)
Definition channel_reading (hw : adc_oracle) (ch : device * nat * ascii) : result pyval :=
  let '(d, i, c) := ch in
  match hw d i with
  | Ok v => calibrated (role_of c) v
  | Raise (OSError _) => Ok (PFloat (-1))
  | Raise e => Raise e
  end.

Definition role_eqb (r1 r2 : role) : bool :=
  match r1, r2 with
  | Light, Light | Voltage, Voltage | Generic, Generic => true
  | _, _ => false
  end.

Definition has_role (r : role) (ch : device * nat * ascii) : bool :=
  role_eqb (role_of (snd ch)) r.

(** The channels of one role, in physical read order. *)
Definition role_channels (r : role) (self : t) : list (device * nat * ascii) :=
  filter (has_role r) (physical_order self).

(** The queue of a role, and a reading appended to it. *)
Definition queue_of (r : role) (q : queues) : list pyval :=
  match r with
  | Light => light q
  | Voltage => voltage q
  | Generic => other q
  end.

Definition push (r : role) (x : pyval) (q : queues) : queues :=
  match r with
  | Light => {| light := light q ++ [x]; voltage := voltage q; other := other q |}
  | Voltage => {| light := light q; voltage := voltage q ++ [x]; other := other q |}
  | Generic => {| light := light q; voltage := voltage q; other := other q ++ [x] |}
  end.

(** How many of the first [k] requests of [order] ask for role [r]. *)
Definition requests_before (r : role) (k : nat) (order : list ascii) : nat :=
  List.length (filter (fun c => role_eqb (role_of c) r) (firstn k order)).

(** Re-emission by popping the role queues, as the specification words it. *)
Fixpoint reassemble (order : list ascii) (l v o : list pyval) : list pyval :=
  match order with
  | [] => []
  | c :: rest =>
      match role_of c with
      | Light => fst (pop_or_zero l) :: reassemble rest (snd (pop_or_zero l)) v o
      | Voltage => fst (pop_or_zero v) :: reassemble rest l (snd (pop_or_zero v)) o
      | Generic => fst (pop_or_zero o) :: reassemble rest l v (snd (pop_or_zero o))
      end
  end.

(** No channel read raises anything but [OSError]. *)
Definition bus_faults_only (hw : adc_oracle) : Prop :=
  forall d i e, hw d i = Raise e -> is_OSError e = true.

(** "The largest bucket label whose breakpoint is <= the fraction, 0 when
    the fraction is below all breakpoints". *)
Definition largest_label_reached (f : Q) (b : Z) : Prop :=
  ((exists p, In (b, p) (combine buckets breakpoints) /\ (p <= f)%Q)
   \/ (b = 0 /\ forall p, In p breakpoints -> (f < p)%Q))
  /\ forall n p, In (n, p) (combine buckets breakpoints) -> (p <= f)%Q -> n <= b.

End AnalogReader.

(** ** start(): the telemetry loop *)

Module Telemetry.

(** What the run does to the outside world, in order. *)
Inductive event : Type :=
| WlanActive (on : bool)       (* wlan.active(on) *)
| WlanConnect                  (* wlan.connect(wifi_name, wifi_pswd) *)
| WlanDisconnect               (* wlan.disconnect() *)
| Idle                         (* machine.idle() *)
| Measure (i : nat)            (* distance_sensors[i].distance_mm() *)
| ReadBank                     (* ads.read_sensor_values("vvll_") *)
| Post (data : list pyval)     (* urequests.post(aws_endpoint+"?data="+data_str, timeout=50) *)
| Sleep.                       (* time.sleep(0.1) *)

(** The result of a piece of the program: a value, an exception, or no
    result within the observed part of the run. *)
Inductive res (A : Type) : Type :=
| Val (a : A)
| Exc (e : exn)
| Hang.
Arguments Val {A} a.
Arguments Exc {A} e.
Arguments Hang {A}.

(** Statements of [start]: they extend the trace of events. *)
Definition M (A : Type) : Type := list event -> res A * list event.

Definition ret {A} (a : A) : M A := fun tr => (Val a, tr).

Definition mbind {A B} (m : M A) (k : A -> M B) : M B :=
  fun tr =>
    match m tr with
    | (Val a, tr') => k a tr'
    | (Exc e, tr') => (Exc e, tr')
    | (Hang, tr') => (Hang, tr')
    end.

Definition raise {A} (e : exn) : M A := fun tr => (Exc e, tr).

Definition hang {A} : M A := fun tr => (Hang, tr).

Definition emit (ev : event) : M unit := fun tr => (Val tt, tr ++ [ev]).

(** A call whose outcome the environment fixes. *)
Definition lift {A} (r : result A) : M A :=
  match r with
  | Ok a => ret a
  | Raise e => raise e
  end.

(** [try: body  except ...: handler]; the handler re-raises what the
    [except] clause does not name. *)
Definition try_except {A} (body : M A) (handler : exn -> M A) : M A :=
  fun tr =>
    match body tr with
    | (Exc e, tr') => handler e tr'
    | r => r
    end.

Declare Scope tel_scope.
Delimit Scope tel_scope with tel.
Notation "x <- c ;; k" := (mbind c (fun x => k))
  (at level 61, c at next level, right associativity) : tel_scope.
Notation "c ;; k" := (mbind c (fun _ => k))
  (at level 61, right associativity) : tel_scope.
Local Open Scope tel_scope.

(** [body["endLoop"]]: its truth value, or the exception of the lookup. *)
Record body : Type := { endLoop : result bool }.

(** The reply of [urequests.post]: [response.json()] parses or raises. *)
Record response : Type := { json : result body }.

(** [while not wlan.isconnected(): machine.idle()]: the link comes up after
    so many calls of [machine.idle()], or the wait is interrupted from the
    console after so many, or the link does not come up. *)
Inductive wait_outcome : Type :=
| Connected (idles : nat)
| Interrupted (idles : nat)
| Forever.

(** The environment of one pass of [while True]. *)
Record cycle_env : Type := {
  pulses : nat -> HCSR04.pulse_outcome;   (* the echo of each ranger *)
  adc : AnalogReader.adc_oracle;          (* the ADC registers *)
  connected_before_post : bool;           (* wlan.isconnected(), line 200 *)
  post : result response;                 (* urequests.post(...), line 201 *)
  connected_after_error : bool;           (* wlan.isconnected(), line 214 *)
  reconnect : wait_outcome;               (* the wait of lines 218-219 *)
  sleep : result unit                     (* time.sleep(0.1), line 220 *)
}.

(** The environment of a run of [start]. *)
Record run_env : Type := {
  initial_wait : wait_outcome;            (* the wait of lines 183-184 *)
  script : list cycle_env;                (* one entry per pass of the loop *)
  connected_at_interrupt : bool           (* wlan.isconnected(), line 222 *)
}.

(** What [start] reads from config.txt (taken as validated). *)
Record config : Type := {
  bot_id : Z;
  distance_sensors : list HCSR04.t;
  ads : AnalogReader.t
}.

Fixpoint idle (n : nat) : M unit :=
  match n with
  | O => ret tt
  | S k => emit Idle ;; idle k
  end.

Definition wait (w : wait_outcome) : M unit :=
  match w with
  | Connected n => idle n
  | Interrupted n => idle n ;; raise KeyboardInterrupt
  | Forever => hang
  end.

(** A list comprehension whose element expression has effects. *)
Fixpoint map_M {X Y} (f : X -> M Y) (xs : list X) : M (list Y) :=
  match xs with
  | [] => ret []
  | x :: rest => y <- f x ;; ys <- map_M f rest ;; ret (y :: ys)
  end.

(** The order string of line 195. *)
Definition vvll_ : list ascii := list_ascii_of_string "vvll_".

(** Lines 194-195:
    [[
      data = [bot_id] + [ds.distance_mm() for ds in distance_sensors[:2]]
           + ads.read_sensor_values("vvll_")
    ]] *)
Definition polling (cfg : config) (env : cycle_env) : M (list pyval) :=
  dists <- map_M (fun ids =>
                    emit (Measure (fst ids)) ;;
                    lift (HCSR04.distance_mm (snd ids) (pulses env (fst ids))))
                 (AnalogReader.enumerate (firstn 2 (distance_sensors cfg))) ;;
  emit ReadBank ;;
  bank <- lift (AnalogReader.read_sensor_values (ads cfg) (adc env) vvll_) ;;
  ret ([PInt (bot_id cfg)] ++ map PInt dists ++ bank).

(** How a pass of the loop ends. *)
Inductive ctl : Type :=
| Continue
| Break.

(** The body of the inner [try], lines 199-210. *)
Definition reporting (env : cycle_env) (data : list pyval) : M ctl :=
  response <- (if connected_before_post env
               then emit (Post data) ;; r <- lift (post env) ;; ret (Some r)
               else ret None) ;;
  body <- match response with
          | Some r => lift (json r)
          | None => raise AttributeError      (* None has no attribute json *)
          end ;;
  stop <- lift (endLoop body) ;;
  if stop then ret Break else ret Continue.

(** [except (IndexError, KeyError, OSError)] *)
Definition caught (e : exn) : bool :=
  match e with
  | IndexError | KeyError | OSError _ => true
  | _ => false
  end.

(** The handler, lines 212-219. *)
Definition recover (env : cycle_env) : M unit :=
  if negb (connected_after_error env) then
    emit (WlanActive true) ;; emit WlanConnect ;; wait (reconnect env)
  else ret tt.

(** One pass of [while True]; [break] skips the sleep. *)
Definition cycle (cfg : config) (env : cycle_env) : M ctl :=
  data <- polling cfg env ;;
  c <- try_except (reporting env data)
         (fun e => if caught e then recover env ;; ret Continue else raise e) ;;
  match c with
  | Break => ret Break
  | Continue => emit Sleep ;; lift (sleep env) ;; ret Continue
  end.

(** [while True]: when the script of the environment is used up the loop
    is still running. *)
Fixpoint loop (cfg : config) (envs : list cycle_env) : M unit :=
  match envs with
  | [] => hang
  | env :: rest =>
      c <- cycle cfg env ;;
      match c with
      | Break => ret tt
      | Continue => loop cfg rest
      end
  end.

(** [except KeyboardInterrupt], lines 221-224. *)
Definition on_interrupt (run : run_env) (e : exn) : M unit :=
  match e with
  | KeyboardInterrupt =>
      if connected_at_interrupt run
      then emit WlanDisconnect ;; emit (WlanActive false)
      else ret tt
  | _ => raise e
  end.

(** Lines 174-184: bring the link up and wait for it (outside the [try]). *)
Definition setup (run : run_env) : M unit :=
  emit (WlanActive true) ;;
  emit WlanConnect ;;
  wait (initial_wait run).

(** [start()], from line 174 on. *)
Definition start (cfg : config) (run : run_env) : M unit :=
  setup run ;;
  try_except (loop cfg (script run)) (on_interrupt run).

(** Every event a statement adds to the trace satisfies [P]. *)
Definition extends {A} (P : event -> Prop) (m : M A) : Prop :=
  forall tr r tr', m tr = (r, tr') -> exists evs, tr' = tr ++ evs /\ Forall P evs.

(** Releasing the link: [wlan.disconnect()] and [wlan.active(False)]. *)
Definition is_disconnect (ev : event) : bool :=
  match ev with
  | WlanDisconnect => true
  | _ => false
  end.

Definition is_deactivate (ev : event) : bool :=
  match ev with
  | WlanActive false => true
  | _ => false
  end.

Definition is_reconnect (ev : event) : bool :=
  match ev with
  | WlanConnect => true
  | _ => false
  end.

Definition keeps_link (ev : event) : Prop :=
  is_disconnect ev = false /\ is_deactivate ev = false.

Definition count (p : event -> bool) (tr : list event) : nat :=
  List.length (filter p tr).

(** The reply of a pass sets the termination flag. *)
Definition replies_endLoop (env : cycle_env) : Prop :=
  exists r b, post env = Ok r /\ json r = Ok b /\ endLoop b = Ok true.

(** An exception the inner [except] names came out of the post, of
    [response.json()] or of [body["endLoop"]]. *)
Definition report_raises_caught (env : cycle_env) : Prop :=
  exists e, caught e = true /\
    (post env = Raise e
     \/ exists r, post env = Ok r /\
          (json r = Raise e
           \/ exists b, json r = Ok b /\ endLoop b = Raise e)).

(** The exception that leaves the inner [try], if one does. *)
Definition report_exn (env : cycle_env) : option exn :=
  if connected_before_post env then
    match post env with
    | Raise e => Some e
    | Ok r =>
        match json r with
        | Raise e => Some e
        | Ok b =>
            match endLoop b with
            | Raise e => Some e
            | Ok _ => None
            end
        end
    end
  else Some AttributeError.

(** The pass runs lines 216-219: the handler is entered and finds the
    link down. *)
Definition reconnects (env : cycle_env) : bool :=
  match report_exn env with
  | Some e => caught e && negb (connected_after_error env)
  | None => false
  end.

End Telemetry.

(** ** Concrete environments *)

Module Examples.

Import Telemetry.

(** Device A channel 1 does not acknowledge (ENODEV); every other channel
    returns a register value. *)
Definition one_fault : AnalogReader.adc_oracle :=
  fun d i =>
    match d, i with
    | AnalogReader.adc_1, 1%nat => Raise (OSError (Errno 19))
    | AnalogReader.adc_1, _ => Ok 9580
    | AnalogReader.adc_2, _ => Ok 20000
    end.

Definition steady : AnalogReader.adc_oracle := fun _ _ => Ok 9580.

Definition bank : AnalogReader.t :=
  {| AnalogReader.addr_1 := 72; AnalogReader.addr_2 := 73;
     AnalogReader.layout := list_ascii_of_string "vvll____" |}.

(** A node with one ranger (trigger pin 5, echo pin 18). *)
Definition node : config :=
  {| bot_id := 7; distance_sensors := [HCSR04.init 5 18]; ads := bank |}.

(** A pass in which everything works; the reply carries [endLoop = stop]. *)
Definition pass (stop : bool) : cycle_env :=
  {| pulses := fun _ => HCSR04.Echo 1000;
     adc := steady;
     connected_before_post := true;
     post := Ok {| json := Ok {| endLoop := Ok stop |} |};
     connected_after_error := true;
     reconnect := Connected 0;
     sleep := Ok tt |}.

(** A pass in which the ranger sees no echo within the timeout. *)
Definition no_echo : cycle_env :=
  {| pulses := fun _ => HCSR04.PulseOSError HCSR04.ETIMEDOUT;
     adc := steady;
     connected_before_post := true;
     post := Ok {| json := Ok {| endLoop := Ok false |} |};
     connected_after_error := true;
     reconnect := Connected 0;
     sleep := Ok tt |}.

(** A pass that finds the link down before the post. *)
Definition link_down : cycle_env :=
  {| pulses := fun _ => HCSR04.Echo 1000;
     adc := steady;
     connected_before_post := false;
     post := Ok {| json := Ok {| endLoop := Ok false |} |};
     connected_after_error := false;
     reconnect := Connected 3;
     sleep := Ok tt |}.

(** A pass whose post fails (EHOSTUNREACH) with the link lost, and the
    console interrupts the wait for the link. *)
Definition lost_then_interrupted : cycle_env :=
  {| pulses := fun _ => HCSR04.Echo 1000;
     adc := steady;
     connected_before_post := true;
     post := Raise (OSError (Errno 113));
     connected_after_error := false;
     reconnect := Interrupted 2;
     sleep := Ok tt |}.

(** A pass interrupted from the console during [time.sleep]. *)
Definition interrupted_sleep : cycle_env :=
  {| pulses := fun _ => HCSR04.Echo 1000;
     adc := steady;
     connected_before_post := true;
     post := Ok {| json := Ok {| endLoop := Ok false |} |};
     connected_after_error := true;
     reconnect := Connected 0;
     sleep := Raise KeyboardInterrupt |}.

Definition run_of (envs : list cycle_env) (up : bool) : run_env :=
  {| initial_wait := Connected 1; script := envs; connected_at_interrupt := up |}.

End Examples.

(** ** start(): reading config.txt and building the sensors *)

Module Config.

Import Telemetry.

(** Whitespace as [str.split()] sees it (MicroPython's [unichar_isspace]):
    space, tab, line feed, vertical tab, form feed, carriage return. *)
Definition isspace (c : ascii) : bool :=
  Ascii.eqb c " " || Ascii.eqb c "009" || Ascii.eqb c "010"
  || Ascii.eqb c "011" || Ascii.eqb c "012" || Ascii.eqb c "013".

(** [line.split()]: the maximal runs of characters that are not
    whitespace, in order. *)
Fixpoint split (s : string) : list string :=
  match s with
  | EmptyString => []
  | String c rest =>
      if isspace c then split rest
      else
        match rest with
        | EmptyString => [String c EmptyString]
        | String c' _ =>
            if isspace c' then String c EmptyString :: split rest
            else
              match split rest with
              | tok :: toks => String c tok :: toks
              | [] => [String c EmptyString]
              end
        end
  end.

(** [l[i]] *)
Definition index {A} (l : list A) (i : nat) : result A :=
  match nth_error l i with
  | Some x => Ok x
  | None => Raise IndexError
  end.

(** [s[0]] *)
Definition first_char (s : string) : result ascii :=
  match s with
  | String c _ => Ok c
  | EmptyString => Raise IndexError
  end.

(** A list comprehension whose element expression may raise. *)
Fixpoint map_result {X Y} (f : X -> result Y) (xs : list X) : result (list Y) :=
  match xs with
  | [] => Ok []
  | x :: rest => y <- f x ;; ys <- map_result f rest ;; Ok (y :: ys)
  end.

(** A [dict] with string keys: assignment replaces the value of a key that
    is present and adds a key that is not. *)
Definition dict (V : Type) : Type := list (string * V).

Fixpoint dict_set {V} (k : string) (v : V) (d : dict V) : dict V :=
  match d with
  | [] => [(k, v)]
  | (k', v') :: rest =>
      if String.eqb k' k then (k, v) :: rest
      else (k', v') :: dict_set k v rest
  end.

(** [d[k]]: [KeyError] when the key is missing. *)
Fixpoint dict_get {V} (d : dict V) (k : string) : result V :=
  match d with
  | [] => Raise KeyError
  | (k', v) :: rest => if String.eqb k' k then Ok v else dict_get rest k
  end.

Definition dict_values {V} (d : dict V) : list V := map snd d.

(** The variables of lines 140-146. *)
Record state : Type := {
  bot_id : Z;
  wifi_name : string;
  wifi_pswd : string;
  aws_endpoint : string;
  dist_sensors : dict (list Z);
  i2c_pins : dict Z;
  adcs : list (string * Z)
}.

(** Lines 140-146. *)
Definition initial : state :=
  {| bot_id := -1; wifi_name := ""; wifi_pswd := ""; aws_endpoint := "";
     dist_sensors := []; i2c_pins := []; adcs := [] |}.

Definition set_bot_id (n : Z) (st : state) : state :=
  {| bot_id := n; wifi_name := wifi_name st; wifi_pswd := wifi_pswd st;
     aws_endpoint := aws_endpoint st; dist_sensors := dist_sensors st;
     i2c_pins := i2c_pins st; adcs := adcs st |}.

Definition set_wifi_name (s : string) (st : state) : state :=
  {| bot_id := bot_id st; wifi_name := s; wifi_pswd := wifi_pswd st;
     aws_endpoint := aws_endpoint st; dist_sensors := dist_sensors st;
     i2c_pins := i2c_pins st; adcs := adcs st |}.

Definition set_wifi_pswd (s : string) (st : state) : state :=
  {| bot_id := bot_id st; wifi_name := wifi_name st; wifi_pswd := s;
     aws_endpoint := aws_endpoint st; dist_sensors := dist_sensors st;
     i2c_pins := i2c_pins st; adcs := adcs st |}.

Definition set_aws_endpoint (s : string) (st : state) : state :=
  {| bot_id := bot_id st; wifi_name := wifi_name st; wifi_pswd := wifi_pswd st;
     aws_endpoint := s; dist_sensors := dist_sensors st;
     i2c_pins := i2c_pins st; adcs := adcs st |}.

Definition set_dist_sensor (k : string) (pins : list Z) (st : state) : state :=
  {| bot_id := bot_id st; wifi_name := wifi_name st; wifi_pswd := wifi_pswd st;
     aws_endpoint := aws_endpoint st;
     dist_sensors := dict_set k pins (dist_sensors st);
     i2c_pins := i2c_pins st; adcs := adcs st |}.

Definition set_i2c_pin (k : string) (pin : Z) (st : state) : state :=
  {| bot_id := bot_id st; wifi_name := wifi_name st; wifi_pswd := wifi_pswd st;
     aws_endpoint := aws_endpoint st; dist_sensors := dist_sensors st;
     i2c_pins := dict_set k pin (i2c_pins st); adcs := adcs st |}.

Definition append_adc (a : string * Z) (st : state) : state :=
  {| bot_id := bot_id st; wifi_name := wifi_name st; wifi_pswd := wifi_pswd st;
     aws_endpoint := aws_endpoint st; dist_sensors := dist_sensors st;
     i2c_pins := i2c_pins st; adcs := adcs st ++ [a] |}.

Section Parse.

(** The builtins [int(s)] and [int(s, 16)]: the number, or [ValueError]. *)
Variable int : string -> result Z.
Variable int16 : string -> result Z.

(** The body of the loop over the lines of config.txt, lines 151-167. *)
Definition process_line (st : state) (line : string) : result state :=
  let args := split line in
  match args with
  | [] => Ok st
  | key :: _ =>
      if String.eqb key "id" then
        a <- index args 1 ;; n <- int a ;; Ok (set_bot_id n st)
      else if String.eqb key "wifi" then
        Ok (set_wifi_name (String.concat " " (skipn 1 args)) st)
      else if String.eqb key "w_pwd" then
        Ok (set_wifi_pswd (String.concat " " (skipn 1 args)) st)
      else if String.eqb key "aws_endp" then
        a <- index args 1 ;; Ok (set_aws_endpoint a st)
      else if String.eqb key "scl" || String.eqb key "sda" then
        a <- index args 1 ;; n <- int a ;; Ok (set_i2c_pin key n st)
      else
        c <- first_char key ;;
        if Ascii.eqb c "d" then
          pins <- map_result int (skipn 1 args) ;;
          Ok (set_dist_sensor key pins st)
        else if String.prefix "adc" key then
          a <- index args 1 ;;
          b <- index args 2 ;;
          addr <- int16 b ;;
          Ok (append_adc (a, addr) st)
        else Ok st
  end.

(** Lines 149-167, on the lines of the file. *)
Definition process_config (lines : list string) : result state :=
  AnalogReader.for_each process_line lines initial.

(** [for t, e in ...]: a list of exactly two pins. *)
Definition unpack_pins (pins : list Z) : result HCSR04.t :=
  match pins with
  | [t; e] => Ok (HCSR04.init t e)
  | _ => Raise ValueError
  end.

(** Lines 188-189: the sensor bank, then the rangers. *)
Definition build (st : state) : result config :=
  sda <- dict_get (i2c_pins st) "sda" ;;
  scl <- dict_get (i2c_pins st) "scl" ;;
  a0 <- index (adcs st) 0 ;;
  a1 <- index (adcs st) 1 ;;
  sensors <- map_result unpack_pins (dict_values (dist_sensors st)) ;;
  Ok {| Telemetry.bot_id := bot_id st;
        Telemetry.distance_sensors := sensors;
        Telemetry.ads :=
          {| AnalogReader.addr_1 := snd a0;
             AnalogReader.addr_2 := snd a1;
             AnalogReader.layout := list_ascii_of_string (fst a0 ++ fst a1) |} |}.

(** [start()] from the lines of config.txt: the configuration is read
    before the link is brought up; the sensors are built inside the [try]. *)
Definition start (lines : list string) (run : run_env) : M unit :=
  mbind (lift (process_config lines)) (fun st =>
  mbind (setup run) (fun _ =>
  try_except
    (mbind (lift (build st)) (fun cfg => loop cfg (script run)))
    (on_interrupt run))).

End Parse.

(** A token of a split line: not empty and free of whitespace. *)
Fixpoint no_space (s : string) : bool :=
  match s with
  | EmptyString => true
  | String c rest => negb (isspace c) && no_space rest
  end.

Definition is_token (s : string) : bool :=
  match s with
  | EmptyString => false
  | String _ _ => no_space s
  end.

(** A line of whitespace only (or empty). *)
Fixpoint blank (s : string) : bool :=
  match s with
  | EmptyString => true
  | String c rest => isspace c && blank rest
  end.

(** The keys the loop names. *)
Definition named_key (key : string) : bool :=
  String.eqb key "id" || String.eqb key "wifi" || String.eqb key "w_pwd"
  || String.eqb key "aws_endp" || String.eqb key "scl" || String.eqb key "sda".

End Config.

(** The numerals [int(s)] and [int(s, 16)] read from a token of a line
    (a token holds no whitespace): an optional sign, for base 16 an
    optional prefix [0x] or [0X], then digits of the base, with single
    underscores allowed between them and after the prefix; anything else
    is a [ValueError]. *)
Module Numerals.

Definition digit (base : Z) (c : ascii) : result Z :=
  let n := Z.of_nat (nat_of_ascii c) in
  let v := if (48 <=? n) && (n <=? 57) then n - 48
           else if (97 <=? n) && (n <=? 102) then n - 87
           else if (65 <=? n) && (n <=? 70) then n - 55
           else base in
  if v <? base then Ok v else Raise ValueError.

(** [after_digit] tells whether the character before was a digit: an
    underscore stands between two digits only. *)
Fixpoint digits (base : Z) (s : string) (acc : Z) (after_digit : bool) : result Z :=
  match s with
  | EmptyString => if after_digit then Ok acc else Raise ValueError
  | String c rest =>
      if Ascii.eqb c "_" then
        if after_digit then digits base rest acc false else Raise ValueError
      else
        v <- digit base c ;; digits base rest (base * acc + v) true
  end.

Definition unsigned (base : Z) (s : string) : result Z :=
  match s with
  | String "0" (String x rest) =>
      if (base =? 16) && (Ascii.eqb x "x" || Ascii.eqb x "X") then
        match rest with
        | String "_" rest' => digits base rest' 0 false
        | _ => digits base rest 0 false
        end
      else digits base s 0 false
  | _ => digits base s 0 false
  end.

Definition number (base : Z) (s : string) : result Z :=
  match s with
  | String "-" rest => n <- unsigned base rest ;; Ok (- n)
  | String "+" rest => unsigned base rest
  | _ => unsigned base s
  end.

Definition int : string -> result Z := number 10.
Definition int16 : string -> result Z := number 16.

(** A complete config.txt. *)
Definition config_txt : list string :=
  [ "id 7"; ""; "wifi  My   Net "; "w_pwd secret"; "aws_endp http://host/telemetry";
    "scl 22"; "sda 21"; "d1 5 18"; "adc1 vvll 48"; "adc2 ____ 49" ]%string.

(** What the loop over its lines leaves in the variables. *)
Definition configured : Config.state :=
  {| Config.bot_id := 7;
     Config.wifi_name := "My Net";
     Config.wifi_pswd := "secret";
     Config.aws_endpoint := "http://host/telemetry";
     Config.dist_sensors := [("d1"%string, [5; 18])];
     Config.i2c_pins := [("scl"%string, 22); ("sda"%string, 21)];
     Config.adcs := [("vvll"%string, 72); ("____"%string, 73)] |}.

End Numerals.

(** Further passes of the loop. *)
Module Scenarios.

Import Telemetry.

(** The reply parses but has no [endLoop] field, and the link is lost. *)
Definition reply_without_flag : cycle_env :=
  {| pulses := fun _ => HCSR04.Echo 1000;
     adc := Examples.steady;
     connected_before_post := true;
     post := Ok {| json := Ok {| endLoop := Raise KeyError |} |};
     connected_after_error := false;
     reconnect := Connected 2;
     sleep := Ok tt |}.

(** The record of the passes of [Examples]. *)
Definition record : list pyval :=
  [PInt 7; PInt 171; PInt 0; PInt 0; PInt 20; PInt 20; PInt 9580].

End Scenarios.

(** ** Binary floating point *)

Module Ieee.

(** A binary format: the bits of the mantissa, the hidden one included,
    and the exponent of the infinities.  MicroPython on the ESP32 has
    32-bit floats, CPython 64-bit ones. *)
Record format : Type := { prec : Z; emax : Z }.

Definition binary32 : format := {| prec := 24; emax := 128 |}.
Definition binary64 : format := {| prec := 53; emax := 1024 |}.

(** An integer as a float, rounded to nearest even (for integers within
    the range of the format). *)
Definition of_int (fmt : format) (n : Z) : spec_float :=
  binary_normalize (prec fmt) (emax fmt) n 0 false.

(** [x / y] on floats, for a divisor that is not zero. *)
Definition div (fmt : format) (x y : spec_float) : spec_float :=
  SFdiv (prec fmt) (emax fmt) x y.

(** [x * y] on floats. *)
Definition mul (fmt : format) (x y : spec_float) : spec_float :=
  SFmul (prec fmt) (emax fmt) x y.

(** The literal [29.1]: the float nearest to 291/10. *)
Definition lit_29_1 (fmt : format) : spec_float :=
  div fmt (of_int fmt 291) (of_int fmt 10).

(** The rational a finite float stands for. *)
Definition value (x : spec_float) : option Q :=
  match x with
  | S754_zero _ => Some 0%Q
  | S754_finite s m e =>
      let n := if s then Z.neg m else Z.pos m in
      Some (match e with
            | Z0 => inject_Z n
            | Zpos p => inject_Z (n * 2 ^ Z.pos p)
            | Zneg p => n # (2 ^ p)
            end)
  | S754_infinity _ => None
  | S754_nan => None
  end.

(** [cms = (pulse_time / 2) / 29.1]: [pulse_time / 2] converts the integers
    to floats and divides them, the second division is by the float of the
    literal. *)
Definition distance_cm (fmt : format) (self : HCSR04.t) (hw : HCSR04.pulse_outcome)
  : result spec_float :=
  pulse_time <- HCSR04._send_pulse_and_wait self hw ;;
  Ok (div fmt (div fmt (of_int fmt pulse_time) (of_int fmt 2)) (lit_29_1 fmt)).

(** The exact quotient. *)
Definition exact_cm (pulse_time : Z) : Q := ((inject_Z pulse_time / 2) / (291 # 10))%Q.

(** The float of [distance_cm] for a pulse width is finite, within [tol] of
    the exact quotient, and ten times it, exactly or as a float, rounds
    down to the millimetres of [distance_mm]. *)
Definition accurate (fmt : format) (tol : Q) (pulse_time : Z) : bool :=
  let cm := div fmt (div fmt (of_int fmt pulse_time) (of_int fmt 2)) (lit_29_1 fmt) in
  match value cm, value (mul fmt (of_int fmt 10) cm) with
  | Some v, Some v10 =>
      Qle_bool (Qabs (v - exact_cm pulse_time)) tol
      && (Qfloor (10 * v) =? pulse_time * 100 / 582)
      && (Qfloor v10 =? pulse_time * 100 / 582)
  | _, _ => false
  end.

(** [f] holds of the [n] integers from [p] on. *)
Fixpoint all_from (f : Z -> bool) (n : nat) (p : Z) : bool :=
  match n with
  | O => true
  | S k => f p && all_from f k (p + 1)
  end.

End Ieee.

(** ** The channel of a layout position *)

Module Layout.

(** The device and the channel number on which the character at position
    [k] of the layout is read. *)
Definition device_of (k : nat) : AnalogReader.device :=
  if (k <? 4)%nat then AnalogReader.adc_1 else AnalogReader.adc_2.

Definition channel_of (k : nat) : nat :=
  if (k <? 4)%nat then k else (k - 4)%nat.

End Layout.

(** * Properties *)

(** ** The ranger *)

Section Ranger.

Import HCSR04.

Variable self : HCSR04.t.

Lemma send_pulse_echo (pulse_time : Z) :
  _send_pulse_and_wait self (Echo pulse_time) = Ok pulse_time.
Proof. reflexivity. Qed.

Lemma send_pulse_timeout :
  _send_pulse_and_wait self (PulseOSError ETIMEDOUT) = Raise OutOfRange.
Proof. reflexivity. Qed.

Lemma send_pulse_other_errno (errno : Z) :
  errno <> ETIMEDOUT ->
  _send_pulse_and_wait self (PulseOSError errno) = Raise (OSError (Errno errno)).
Proof.
  intros Hne. unfold _send_pulse_and_wait.
  destruct (Z.eqb_spec errno ETIMEDOUT) as [Heq | _]; [contradiction | reflexivity].
Qed.

(** On a non-negative dividend Python's floor division truncates. *)
Lemma floor_is_truncation (a b : Z) : 0 <= a -> 0 < b -> a / b = Z.quot a b.
Proof. intros Ha Hb. symmetry. apply Z.quot_div_nonneg; lia. Qed.

(** The integer accessor is the floating one, times ten, rounded down. *)
Lemma distance_mm_floor_of_cm (pulse_time : Z) :
  pulse_time * 100 / 582 = Qfloor (10 * ((inject_Z pulse_time / 2) / (291 # 10)))%Q.
Proof.
  assert (E : (10 * ((inject_Z pulse_time / 2) / (291 # 10)) == (pulse_time * 100) # 582)%Q).
  { unfold Qeq, Qdiv, Qmult, Qinv, inject_Z; cbn [Qnum Qden]. lia. }
  rewrite E. unfold Qfloor. reflexivity.
Qed.

End Ranger.

(** *** The float of [distance_cm] *)

Lemma all_from_spec (f : Z -> bool) (n : nat) :
  forall p, Ieee.all_from f n p = true ->
            forall q, p <= q < p + Z.of_nat n -> f q = true.
Proof.
  induction n as [| n IH]; intros p H q Hq; [lia |].
  cbn [Ieee.all_from] in H. apply andb_prop in H as [Hp Hrest].
  destruct (Z.eq_dec q p) as [-> | Hne]; [exact Hp |].
  apply (IH (p + 1) Hrest). lia.
Qed.

(** Every pulse width up to the default timeout, in 64-bit floats. *)
Lemma accurate_binary64 :
  Ieee.all_from (Ieee.accurate Ieee.binary64 (1 # 1000000000000)) (Z.to_nat 30001) 0 = true.
Proof. vm_compute. reflexivity. Qed.

(** Every pulse width up to the default timeout, in 32-bit floats. *)
Lemma accurate_binary32 :
  Ieee.all_from (Ieee.accurate Ieee.binary32 (4 # 100000)) (Z.to_nat 30001) 0 = true.
Proof. vm_compute. reflexivity. Qed.

Lemma accurate_within_timeout (fmt : Ieee.format) (tol : Q) (pulse_us : Z) :
  Ieee.all_from (Ieee.accurate fmt tol) (Z.to_nat 30001) 0 = true ->
  0 <= pulse_us <= HCSR04.default_echo_timeout_us ->
  forall self : HCSR04.t,
  exists cm v,
    Ieee.distance_cm fmt self (HCSR04.Echo pulse_us) = Ok cm
    /\ Ieee.value cm = Some v
    /\ (Qabs (v - Ieee.exact_cm pulse_us) <= tol)%Q
    /\ Qfloor (10 * v) = pulse_us * 100 / 582
    /\ exists v10, Ieee.value (Ieee.mul fmt (Ieee.of_int fmt 10) cm) = Some v10
                   /\ Qfloor v10 = pulse_us * 100 / 582.
Proof.
  intros Hall Hrange self.
  assert (Hacc : Ieee.accurate fmt tol pulse_us = true).
  { apply (all_from_spec _ _ 0 Hall). unfold HCSR04.default_echo_timeout_us in Hrange.
    rewrite Z2Nat.id by lia. lia. }
  unfold Ieee.accurate in Hacc. unfold Ieee.distance_cm. cbn [HCSR04._send_pulse_and_wait bind].
  set (cm := Ieee.div fmt (Ieee.div fmt (Ieee.of_int fmt pulse_us) (Ieee.of_int fmt 2))
               (Ieee.lit_29_1 fmt)) in *.
  destruct (Ieee.value cm) as [v |] eqn:Ev; [| discriminate].
  destruct (Ieee.value (Ieee.mul fmt (Ieee.of_int fmt 10) cm)) as [v10 |] eqn:Ev10;
    [| discriminate].
  apply andb_prop in Hacc as [Hacc H10]. apply andb_prop in Hacc as [Htol Hfloor].
  exists cm, v. split; [reflexivity |]. split; [exact Ev |].
  split; [now apply Qle_bool_iff |]. split; [now apply Z.eqb_eq |].
  exists v10. split; [exact Ev10 | now apply Z.eqb_eq].
Qed.

(** C1 (as amended): for every pulse time >= 0, [distance_mm] returns
    exactly [pulse * 100 / 582] with truncating integer division;
    [distance_cm] returns the floating-point value of [(pulse / 2) / 29.1],
    which for the pulse times up to the default timeout of 30000 us is
    within 1e-12 of the exact quotient in 64-bit floats and within 4e-5
    in 32-bit floats; both depend on the measured pulse width only (not
    on the ranger that measured it). *)
Theorem distance_accessors (self : HCSR04.t) (pulse_us : Z) :
  0 <= pulse_us ->
  HCSR04.distance_mm self (HCSR04.Echo pulse_us) = Ok (Z.quot (pulse_us * 100) 582)
  /\ (pulse_us <= HCSR04.default_echo_timeout_us ->
      (exists cm v,
          Ieee.distance_cm Ieee.binary64 self (HCSR04.Echo pulse_us) = Ok cm
          /\ Ieee.value cm = Some v
          /\ (Qabs (v - (inject_Z pulse_us / 2) / (291 # 10)) <= 1 # 1000000000000)%Q)
      /\ (exists cm v,
             Ieee.distance_cm Ieee.binary32 self (HCSR04.Echo pulse_us) = Ok cm
             /\ Ieee.value cm = Some v
             /\ (Qabs (v - (inject_Z pulse_us / 2) / (291 # 10)) <= 4 # 100000)%Q))
  /\ forall other : HCSR04.t,
       HCSR04.distance_mm other (HCSR04.Echo pulse_us)
       = HCSR04.distance_mm self (HCSR04.Echo pulse_us)
       /\ forall fmt,
            Ieee.distance_cm fmt other (HCSR04.Echo pulse_us)
            = Ieee.distance_cm fmt self (HCSR04.Echo pulse_us).
Proof.
  intros Hpos. split; [| split].
  - unfold HCSR04.distance_mm. rewrite send_pulse_echo. simpl bind.
    f_equal. apply floor_is_truncation; lia.
  - intros Hmax. split.
    + destruct (accurate_within_timeout _ _ pulse_us accurate_binary64 (conj Hpos Hmax) self)
        as [cm [v [Hcm [Hv [Htol _]]]]].
      exists cm, v. repeat split; assumption.
    + destruct (accurate_within_timeout _ _ pulse_us accurate_binary32 (conj Hpos Hmax) self)
        as [cm [v [Hcm [Hv [Htol _]]]]].
      exists cm, v. repeat split; assumption.
  - intros other. split; [reflexivity | intros fmt; reflexivity].
Qed.

Lemma distance_accessors_witness :
  HCSR04.distance_mm (HCSR04.init 5 18) (HCSR04.Echo 1000) = Ok 171
  /\ exists cm v,
       Ieee.distance_cm Ieee.binary32 (HCSR04.init 5 18) (HCSR04.Echo 1000) = Ok cm
       /\ Ieee.value cm = Some v
       /\ (Qabs (v - (inject_Z 1000 / 2) / (291 # 10)) <= 4 # 100000)%Q.
Proof.
  destruct (distance_accessors (HCSR04.init 5 18) 1000 ltac:(lia)) as [Hmm [Hcm _]].
  split; [exact Hmm |].
  exact (proj2 (Hcm ltac:(unfold HCSR04.default_echo_timeout_us; lia))).
Defined.

(** C1 as stated fails: the float that [distance_cm] returns is not the
    quotient [(pulse / 2) / 29.1] itself, in neither format (pulse time
    1000), and in 32-bit floats it is further than 1e-6 from it at the
    pulse time 942. *)
Lemma distance_cm_is_rounded :
  (exists cm v,
      Ieee.distance_cm Ieee.binary64 (HCSR04.init 5 18) (HCSR04.Echo 1000) = Ok cm
      /\ Ieee.value cm = Some v
      /\ ~ (v == (inject_Z 1000 / 2) / (291 # 10))%Q)
  /\ (exists cm v,
         Ieee.distance_cm Ieee.binary32 (HCSR04.init 5 18) (HCSR04.Echo 1000) = Ok cm
         /\ Ieee.value cm = Some v
         /\ ~ (v == (inject_Z 1000 / 2) / (291 # 10))%Q)
  /\ (exists cm v,
         Ieee.distance_cm Ieee.binary32 (HCSR04.init 5 18) (HCSR04.Echo 942) = Ok cm
         /\ Ieee.value cm = Some v
         /\ (1 # 1000000 < Qabs (v - (inject_Z 942 / 2) / (291 # 10)))%Q).
Proof.
  split; [| split].
  - eexists. eexists. split; [vm_compute; reflexivity |].
    split; [vm_compute; reflexivity |]. vm_compute. discriminate.
  - eexists. eexists. split; [vm_compute; reflexivity |].
    split; [vm_compute; reflexivity |]. vm_compute. discriminate.
  - eexists. eexists. split; [vm_compute; reflexivity |].
    split; [vm_compute; reflexivity |]. vm_compute. reflexivity.
Qed.

(** C2: a measurement fails with [OutOfRange] exactly when the pulse wait
    reports ETIMEDOUT; every other fault of the pulse wait reaches the
    caller unchanged; a successful measurement of a pulse time >= 0 is
    never negative. *)
Theorem measure_out_of_range (self : HCSR04.t) (hw : HCSR04.pulse_outcome) :
  (HCSR04.distance_mm self hw = Raise HCSR04.OutOfRange
   <-> hw = HCSR04.PulseOSError HCSR04.ETIMEDOUT)
  /\ (forall e, HCSR04.fault_exn hw = Some e ->
        hw <> HCSR04.PulseOSError HCSR04.ETIMEDOUT ->
        HCSR04.distance_mm self hw = Raise e)
  /\ (forall t mm, hw = HCSR04.Echo t -> 0 <= t ->
        HCSR04.distance_mm self hw = Ok mm -> 0 <= mm)
  /\ (forall t cm, hw = HCSR04.Echo t -> 0 <= t ->
        HCSR04.distance_cm self hw = Ok cm -> (0 <= cm)%Q).
Proof.
  split; [| split; [| split]].
  - split.
    + destruct hw as [t | errno |]; unfold HCSR04.distance_mm; simpl.
      * discriminate.
      * destruct (Z.eqb_spec errno HCSR04.ETIMEDOUT) as [-> | Hne]; simpl.
        -- reflexivity.
        -- discriminate.
      * discriminate.
    + intros ->. reflexivity.
  - intros e He Hne. destruct hw as [t | errno |]; simpl in He.
    + discriminate.
    + injection He as <-. unfold HCSR04.distance_mm.
      rewrite send_pulse_other_errno; [reflexivity | congruence].
    + injection He as <-. reflexivity.
  - intros t mm -> Ht H. unfold HCSR04.distance_mm in H. simpl in H.
    injection H as <-. apply Z.div_pos; lia.
  - intros t cm -> Ht H. unfold HCSR04.distance_cm in H. simpl in H.
    injection H as <-.
    unfold Qle, Qdiv, Qmult, Qinv, inject_Z; cbn [Qnum Qden]. lia.
Qed.

(** ** The bucket function *)

Section Bucket.

Import AnalogReader.

(** The running maximum of [max]: it is one of the elements and bounds
    all of them. *)
Lemma fold_max_spec (xs : list Z) :
  forall x, let m := fold_left Z.max xs x in
            In m (x :: xs) /\ forall y, In y (x :: xs) -> y <= m.
Proof.
  induction xs as [| a xs IH]; intros x; cbn [fold_left].
  - split; [now left |]. intros y [<- | []]. lia.
  - destruct (IH (Z.max x a)) as [Hin Hub]. split.
    + destruct Hin as [Hm | Hm].
      * rewrite <- Hm.
        destruct (Z.max_spec x a) as [[_ E] | [_ E]]; rewrite E;
          [right; left | left]; reflexivity.
      * right; right; exact Hm.
    + intros y [<- | [<- | Hy]].
      * specialize (Hub (Z.max x a) (or_introl eq_refl)). lia.
      * specialize (Hub (Z.max x a) (or_introl eq_refl)). lia.
      * apply Hub. right; exact Hy.
Qed.

Lemma py_max_spec (l : list Z) (m : Z) :
  py_max l = Ok m -> In m l /\ forall y, In y l -> y <= m.
Proof.
  destruct l as [| x xs]; cbn [py_max]; [discriminate |].
  intros [= <-]. apply fold_max_spec.
Qed.

(** [max] is applied to a list that ends in [0]: it never raises. *)
Lemma bucket_total (f : Q) : exists b, bucket f = Ok b.
Proof.
  unfold bucket. destruct (labels_reached f) as [| x xs]; cbn; eauto.
Qed.

Lemma labels_reached_iff (f : Q) (n : Z) :
  In n (labels_reached f) <->
  exists p, In (n, p) (combine buckets breakpoints) /\ (p <= f)%Q.
Proof.
  unfold labels_reached. rewrite in_map_iff. split.
  - intros [[n' p] [Hn Hin]]. cbn in Hn. subst n'.
    apply filter_In in Hin as [Hin Hle]. cbn in Hle.
    exists p. split; [exact Hin | now apply Qle_bool_iff].
  - intros [p [Hin Hle]]. exists (n, p). split; [reflexivity |].
    apply filter_In. split; [exact Hin | now apply Qle_bool_iff].
Qed.

Lemma breakpoints_nonneg (p : Q) : In p breakpoints -> (0 <= p)%Q.
Proof.
  cbn. intros H.
  repeat (destruct H as [<- | H]; [unfold Qle; cbn; lia |]). destruct H.
Qed.

(** The code's bucket is the specification's largest label. *)
Lemma bucket_is_largest_label (f : Q) (b : Z) :
  bucket f = Ok b -> largest_label_reached f b.
Proof.
  intros Hb. apply py_max_spec in Hb as [Hin Hub]. split.
  - apply in_app_or in Hin as [Hin | [<- | []]].
    + left. now apply labels_reached_iff.
    + destruct (Qlt_le_dec f 0) as [Hneg | Hpos].
      * right. split; [reflexivity |]. intros p Hp.
        eapply Qlt_le_trans; [exact Hneg | now apply breakpoints_nonneg].
      * left. exists 0%Q. split; [now left | exact Hpos].
  - intros n p Hin' Hle. apply Hub. apply in_or_app. left.
    apply labels_reached_iff. eauto.
Qed.

(** A larger fraction reaches every label a smaller one reaches. *)
Lemma bucket_monotone (f1 f2 : Q) (b1 b2 : Z) :
  (f1 <= f2)%Q -> bucket f1 = Ok b1 -> bucket f2 = Ok b2 -> b1 <= b2.
Proof.
  intros Hle H1 H2.
  apply py_max_spec in H1 as [Hin1 _]. apply py_max_spec in H2 as [_ Hub2].
  apply Hub2. apply in_or_app.
  apply in_app_or in Hin1 as [Hin1 | Hin1]; [left | right; exact Hin1].
  apply labels_reached_iff in Hin1 as [p [Hin Hp]].
  apply labels_reached_iff. exists p. split; [exact Hin |].
  eapply Qle_trans; eassumption.
Qed.

(** Comparisons of the two fractions, reduced to integer arithmetic. *)
Ltac q_arith :=
  unfold light_fraction, voltage_fraction, Qabs, Qeq, Qle, Qlt, Qminus,
    Qplus, Qopp, Qdiv, Qmult, Qinv, inject_Z; cbn [Qnum Qden]; lia.

Lemma light_fraction_monotone (r1 r2 : Z) :
  r1 <= r2 -> (light_fraction r1 <= light_fraction r2)%Q.
Proof. intros H. q_arith. Qed.

Lemma voltage_fraction_monotone (r1 r2 : Z) :
  r1 <= r2 -> (voltage_fraction r1 <= voltage_fraction r2)%Q.
Proof. intros H. q_arith. Qed.

(** Why exact rationals stand for the floats of the program: the fraction
    of an integer register value meets a breakpoint only at an end of the
    scale (0.0 or 1.0, which binary floating point represents and
    computes exactly) and otherwise stays at least [1 / (5 * 30483)],
    resp. [1 / (5 * 27067)], away from it. *)
Lemma fraction_off_breakpoints (raw : Z) (p : Q) :
  In p breakpoints ->
  ((light_fraction raw == p)%Q /\ (p = 0%Q \/ p = 1%Q)
   \/ (1 # 152415 <= Qabs (light_fraction raw - p))%Q)
  /\ ((voltage_fraction raw == p)%Q /\ (p = 0%Q \/ p = 1%Q)
      \/ (1 # 135335 <= Qabs (voltage_fraction raw - p))%Q).
Proof.
  cbn. intros H.
  assert (Hends : forall (A B : Prop) (q : Q), (q = 0%Q \/ q = 1%Q) -> A \/ B ->
            (A /\ (q = 0%Q \/ q = 1%Q)) \/ B) by tauto.
  repeat (destruct H as [<- | H];
    [ split; first [ right; q_arith | apply Hends; [auto | q_arith] ] |]).
  destruct H.
Qed.

(** A read that returns a register value is never the sentinel. *)
Lemma read_light_sensor_ok (adc : nat -> result Z) (channel : nat) (raw : Z) :
  adc channel = Ok raw ->
  exists b, bucket (light_fraction raw) = Ok b
            /\ read_light_sensor adc channel = Ok (PInt b).
Proof.
  intros E. destruct (bucket_total (light_fraction raw)) as [b Hb].
  exists b. split; [exact Hb |].
  unfold read_light_sensor. rewrite E. cbn [bind]. rewrite Hb. reflexivity.
Qed.

Lemma read_voltage_sensor_ok (adc : nat -> result Z) (channel : nat) (raw : Z) :
  adc channel = Ok raw ->
  exists b, bucket (voltage_fraction raw) = Ok b
            /\ read_voltage_sensor adc channel = Ok (PInt b).
Proof.
  intros E. destruct (bucket_total (voltage_fraction raw)) as [b Hb].
  exists b. split; [exact Hb |].
  unfold read_voltage_sensor. rewrite E. cbn [bind]. rewrite Hb. reflexivity.
Qed.

End Bucket.

(** The step function in closed form. *)
Lemma bucket_steps (f : Q) :
  AnalogReader.bucket f =
  Ok (if Qle_bool 1 f then 220
      else if Qle_bool (8 # 10) f then 160
      else if Qle_bool (6 # 10) f then 80
      else if Qle_bool (4 # 10) f then 40
      else if Qle_bool (2 # 10) f then 20
      else 0).
Proof.
  destruct f as [n d].
  unfold AnalogReader.bucket, AnalogReader.labels_reached,
    AnalogReader.buckets, AnalogReader.breakpoints.
  cbn [combine filter snd fst].
  unfold Qle_bool; cbn [Qnum Qden].
  repeat match goal with
         | |- context [Z.leb ?a ?b] => destruct (Z.leb_spec a b)
         end;
    cbn [map fst app AnalogReader.py_max fold_left];
    try (exfalso; lia); f_equal; lia.
Qed.

(** C3 (as amended): for every raw value the light reading is the largest
    label of [0, 20, 40, 80, 160, 220] whose breakpoint is <= the fraction
    [(raw - 335) / 30483], the voltage reading the same for
    [(raw - 5169) / 27067], and 0 below all breakpoints; light raw = 30818
    gives 220, raw = 335 gives 0 and raw = 9580 (fraction about 0.303, in
    the step from 0.2 to 0.4) gives 20. *)
Theorem bucket_of_raw (adc : nat -> result Z) (channel : nat) (raw : Z) :
  adc channel = Ok raw ->
  (exists b, AnalogReader.read_light_sensor adc channel = Ok (PInt b)
             /\ AnalogReader.largest_label_reached (AnalogReader.light_fraction raw) b)
  /\ (exists b, AnalogReader.read_voltage_sensor adc channel = Ok (PInt b)
                /\ AnalogReader.largest_label_reached (AnalogReader.voltage_fraction raw) b)
  /\ AnalogReader.read_light_sensor (fun _ => Ok 30818) channel = Ok (PInt 220)
  /\ AnalogReader.read_light_sensor (fun _ => Ok 335) channel = Ok (PInt 0)
  /\ AnalogReader.read_light_sensor (fun _ => Ok 9580) channel = Ok (PInt 20).
Proof.
  intros E. split; [| split; [| repeat split]].
  - destruct (read_light_sensor_ok adc channel raw E) as [b [Hb Hr]].
    exists b. split; [exact Hr | now apply bucket_is_largest_label].
  - destruct (read_voltage_sensor_ok adc channel raw E) as [b [Hb Hr]].
    exists b. split; [exact Hr | now apply bucket_is_largest_label].
Qed.

Lemma bucket_of_raw_witness :
  exists b, AnalogReader.read_voltage_sensor (fun _ => Ok 20000) 1%nat = Ok (PInt b)
            /\ AnalogReader.largest_label_reached (AnalogReader.voltage_fraction 20000) b.
Proof.
  exact (proj1 (proj2 (bucket_of_raw (fun _ => Ok 20000) 1%nat 20000 eq_refl))).
Defined.

(** C3 as stated fails at raw = 9580: the light reading is 20, not 40. *)
Lemma bucket_of_9580_is_not_40 :
  AnalogReader.read_light_sensor (fun _ => Ok 9580) 0%nat = Ok (PInt 20)
  /\ AnalogReader.read_light_sensor (fun _ => Ok 9580) 0%nat <> Ok (PInt 40)
  /\ (2 # 10 <= AnalogReader.light_fraction 9580)%Q
  /\ (AnalogReader.light_fraction 9580 < 4 # 10)%Q.
Proof.
  split; [reflexivity | split; [discriminate | split]].
  - unfold Qle; cbn; lia.
  - unfold Qlt; cbn; lia.
Qed.

(** C9: the bucket function is monotone: for raw values r1 < r2 whose
    fractions satisfy f1 <= f2, the light bucket of r1 is <= the light
    bucket of r2, and likewise for the voltage normalization. *)
Theorem bucket_is_monotone (r1 r2 : Z) :
  r1 < r2 ->
  ((AnalogReader.light_fraction r1 <= AnalogReader.light_fraction r2)%Q ->
   exists b1 b2,
     AnalogReader.read_light_sensor (fun _ => Ok r1) 0%nat = Ok (PInt b1)
     /\ AnalogReader.read_light_sensor (fun _ => Ok r2) 0%nat = Ok (PInt b2)
     /\ b1 <= b2)
  /\ ((AnalogReader.voltage_fraction r1 <= AnalogReader.voltage_fraction r2)%Q ->
      exists b1 b2,
        AnalogReader.read_voltage_sensor (fun _ => Ok r1) 0%nat = Ok (PInt b1)
        /\ AnalogReader.read_voltage_sensor (fun _ => Ok r2) 0%nat = Ok (PInt b2)
        /\ b1 <= b2).
Proof.
  intros _. split.
  - intros Hl.
    destruct (read_light_sensor_ok (fun _ => Ok r1) 0%nat r1 eq_refl) as [b1 [H1 E1]].
    destruct (read_light_sensor_ok (fun _ => Ok r2) 0%nat r2 eq_refl) as [b2 [H2 E2]].
    exists b1, b2. repeat split; try assumption.
    exact (bucket_monotone _ _ _ _ Hl H1 H2).
  - intros Hv.
    destruct (read_voltage_sensor_ok (fun _ => Ok r1) 0%nat r1 eq_refl) as [b1 [H1 E1]].
    destruct (read_voltage_sensor_ok (fun _ => Ok r2) 0%nat r2 eq_refl) as [b2 [H2 E2]].
    exists b1, b2. repeat split; try assumption.
    exact (bucket_monotone _ _ _ _ Hv H1 H2).
Qed.

Lemma bucket_is_monotone_witness :
  exists b1 b2,
    AnalogReader.read_light_sensor (fun _ => Ok 9580) 0%nat = Ok (PInt b1)
    /\ AnalogReader.read_light_sensor (fun _ => Ok 30818) 0%nat = Ok (PInt b2)
    /\ b1 <= b2.
Proof.
  refine (proj1 (bucket_is_monotone 9580 30818 _) _).
  - lia.
  - unfold Qle; cbn; lia.
Defined.

(** ** The sensor bank *)

Section Bank.

Import AnalogReader.

Variable hw : adc_oracle.

(** A channel's reading is what the reader of its role returns. *)
Lemma channel_reading_eq (d : device) (i : nat) (c : ascii) :
  channel_reading hw (d, i, c) =
  match role_of c with
  | Light => read_light_sensor (hw d) i
  | Voltage => read_voltage_sensor (hw d) i
  | Generic => read_other_sensor (hw d) i
  end.
Proof.
  unfold channel_reading, read_light_sensor, read_voltage_sensor, read_other_sensor.
  destruct (role_of c); destruct (hw d i) as [v | e]; cbn [bind calibrated].
  - destruct (bucket_total (light_fraction v)) as [b ->]. reflexivity.
  - destruct e; reflexivity.
  - destruct (bucket_total (voltage_fraction v)) as [b ->]. reflexivity.
  - destruct e; reflexivity.
  - reflexivity.
  - destruct e; reflexivity.
Qed.

(** The body of the acquisition loops appends the channel's reading to the
    queue of the channel's role. *)
Lemma acquire_eq (d : device) (q : queues) (i : nat) (c : ascii) :
  acquire (hw d) q (i, c) =
  (r <- channel_reading hw (d, i, c) ;; Ok (push (role_of c) r q)).
Proof.
  rewrite channel_reading_eq. unfold acquire, role_of, push.
  destruct (Ascii.eqb c "l"); [reflexivity |].
  destruct (Ascii.eqb c "v"); reflexivity.
Qed.

Lemma queue_of_push (r r' : role) (x : pyval) (q : queues) :
  queue_of r (push r' x q) =
  if role_eqb r' r then queue_of r q ++ [x] else queue_of r q.
Proof. destruct r, r'; reflexivity. Qed.

(** A bus fault gives the sentinel, a register value its calibration. *)
Lemma channel_reading_fault (d : device) (i : nat) (c : ascii) (e : exn) :
  hw d i = Raise e -> is_OSError e = true ->
  channel_reading hw (d, i, c) = Ok (PFloat (-1)).
Proof.
  intros E He. unfold channel_reading. rewrite E.
  destruct e; try discriminate He. reflexivity.
Qed.

Lemma calibrated_is_int (r : role) (v : Z) :
  exists n, calibrated r v = Ok (PInt n).
Proof.
  destruct r; cbn [calibrated].
  - destruct (bucket_total (light_fraction v)) as [b ->]. cbn. eauto.
  - destruct (bucket_total (voltage_fraction v)) as [b ->]. cbn. eauto.
  - eauto.
Qed.

Hypothesis Hbus : bus_faults_only hw.

Lemma channel_reading_total (ch : device * nat * ascii) :
  exists x, channel_reading hw ch = Ok x.
Proof.
  destruct ch as [[d i] c]. destruct (hw d i) as [v | e] eqn:E.
  - unfold channel_reading. rewrite E.
    destruct (calibrated_is_int (role_of c) v) as [n ->]. eauto.
  - exists (PFloat (-1)). eapply channel_reading_fault; eauto.
Qed.

(** The channels of a layout slice on one device. *)
Let tag (d : device) (ics : list (nat * ascii)) : list (device * nat * ascii) :=
  map (fun ic => (d, fst ic, snd ic)) ics.

Let reads (ch : device * nat * ascii) (x : pyval) : Prop :=
  channel_reading hw ch = Ok x.

(** An acquisition loop completes, and extends the queue of every role by
    the readings of that role's channels, in the order of the loop. *)
Lemma for_each_acquire (d : device) (ics : list (nat * ascii)) :
  forall q0, exists q,
    for_each (acquire (hw d)) ics q0 = Ok q
    /\ forall r, exists added,
         queue_of r q = queue_of r q0 ++ added
         /\ Forall2 reads (filter (has_role r) (tag d ics)) added.
Proof.
  induction ics as [| [i c] rest IH]; intros q0.
  - exists q0. split; [reflexivity |]. intros r. exists [].
    split; [now rewrite app_nil_r | constructor].
  - destruct (channel_reading_total (d, i, c)) as [x Hx].
    destruct (IH (push (role_of c) x q0)) as [q [Hq Hrole]].
    exists q. split.
    + cbn [for_each]. rewrite acquire_eq, Hx. exact Hq.
    + intros r. destruct (Hrole r) as [added [Hadd Hall]].
      rewrite queue_of_push in Hadd.
      cbn [tag map filter fst snd]. unfold has_role at 1. cbn [snd].
      destruct (role_eqb (role_of c) r).
      * exists (x :: added). split.
        -- rewrite Hadd, <- app_assoc. reflexivity.
        -- constructor; assumption.
      * exists added. split; assumption.
Qed.

(** Both loops together: each role queue holds the readings of the
    channels of its role, in physical read order. *)
Lemma read_queues_spec (self : t) :
  exists q, read_queues self hw = Ok q
            /\ forall r, Forall2 reads (role_channels r self) (queue_of r q).
Proof.
  unfold read_queues.
  destruct (for_each_acquire adc_1 (enumerate (firstn 4 (layout self))) no_readings)
    as [q1 [H1 R1]].
  destruct (for_each_acquire adc_2 (enumerate (skipn 4 (layout self))) q1)
    as [q2 [H2 R2]].
  exists q2. split.
  - rewrite H1. exact H2.
  - intros r. destruct (R1 r) as [a1 [E1 F1]]. destruct (R2 r) as [a2 [E2 F2]].
    unfold role_channels, physical_order. rewrite filter_app.
    rewrite E2, E1.
    replace (queue_of r no_readings) with (@nil pyval) by (destruct r; reflexivity).
    cbn [app]. apply Forall2_app; assumption.
Qed.

End Bank.

Section Reassembly.

Import AnalogReader.

(** The output loop appends to [data] what popping the queues yields. *)
Lemma fold_emit (order : list ascii) :
  forall q data,
    snd (fold_left emit order (q, data))
    = data ++ reassemble order (light q) (voltage q) (other q).
Proof.
  induction order as [| c rest IH]; intros q data; cbn [fold_left reassemble].
  - now rewrite app_nil_r.
  - unfold emit at 2, role_of.
    destruct (Ascii.eqb c "l"); [| destruct (Ascii.eqb c "v")].
    + destruct (pop_or_zero (light q)) as [x l'] eqn:E.
      rewrite IH, <- app_assoc. reflexivity.
    + destruct (pop_or_zero (voltage q)) as [x l'] eqn:E.
      rewrite IH, <- app_assoc. reflexivity.
    + destruct (pop_or_zero (other q)) as [x l'] eqn:E.
      rewrite IH, <- app_assoc. reflexivity.
Qed.

Lemma reassemble_length (order : list ascii) :
  forall l v o, List.length (reassemble order l v o) = List.length order.
Proof.
  induction order as [| c rest IH]; intros l v o; cbn [reassemble List.length].
  - reflexivity.
  - destruct (role_of c); cbn [List.length]; now rewrite IH.
Qed.

Lemma pop_or_zero_nth (q : list pyval) (j : nat) :
  fst (pop_or_zero q) = nth 0 q (PFloat 0)
  /\ nth j (snd (pop_or_zero q)) (PFloat 0) = nth (S j) q (PFloat 0).
Proof. destruct q; cbn; split; try reflexivity. now destruct j. Qed.

(** Position [k] of the output holds the reading of its role that as many
    earlier requests of that role have not taken, and 0.0 if there is none
    left. *)
Lemma reassemble_nth (order : list ascii) :
  forall k c l v o,
    nth_error order k = Some c ->
    nth_error (reassemble order l v o) k
    = Some (nth (requests_before (role_of c) k order)
                (queue_of (role_of c) {| light := l; voltage := v; other := o |})
                (PFloat 0)).
Proof.
  unfold requests_before.
  induction order as [| c0 rest IH]; intros k c l v o Hk.
  - destruct k; discriminate.
  - destruct k as [| k]; cbn [nth_error] in Hk.
    + injection Hk as ->. cbn [reassemble firstn filter List.length].
      destruct (role_of c); cbn [nth_error queue_of light voltage other];
        f_equal; apply (proj1 (pop_or_zero_nth _ 0%nat)).
    + cbn [reassemble firstn filter].
      destruct (role_of c0) eqn:E0; cbn [nth_error];
        rewrite (IH k c _ _ _ Hk);
        destruct (role_of c) eqn:Ec;
        cbn [role_eqb queue_of light voltage other List.length];
        f_equal; try reflexivity; apply pop_or_zero_nth.
Qed.

End Reassembly.

(** C6: [read_sensor_values] returns as many values as [order] has
    role-tags; position by position it pops the next value of the
    requested role's queue, and puts 0.0 where that queue is used up. *)
Theorem read_all_follows_order
  (self : AnalogReader.t) (hw : AnalogReader.adc_oracle) (order : list ascii) :
  AnalogReader.bus_faults_only hw ->
  exists q data,
    AnalogReader.read_queues self hw = Ok q
    /\ AnalogReader.read_sensor_values self hw order = Ok data
    /\ List.length data = List.length order
    /\ data = AnalogReader.reassemble order
                (AnalogReader.light q) (AnalogReader.voltage q) (AnalogReader.other q)
    /\ forall k c, nth_error order k = Some c ->
         let r := AnalogReader.role_of c in
         let taken := AnalogReader.requests_before r k order in
         nth_error data k = Some (nth taken (AnalogReader.queue_of r q) (PFloat 0))
         /\ (List.length (AnalogReader.queue_of r q) <= taken ->
             nth_error data k = Some (PFloat 0))%nat.
Proof.
  intros Hbus. destruct (read_queues_spec hw Hbus self) as [q [Hq _]].
  exists q, (AnalogReader.reassemble order
               (AnalogReader.light q) (AnalogReader.voltage q) (AnalogReader.other q)).
  split; [exact Hq |]. split; [| split; [| split]].
  - unfold AnalogReader.read_sensor_values. rewrite Hq. cbn [bind].
    rewrite fold_emit. reflexivity.
  - apply reassemble_length.
  - reflexivity.
  - intros k c Hk r taken.
    assert (E := reassemble_nth order k c _ _ _ Hk
                   : nth_error (AnalogReader.reassemble order (AnalogReader.light q)
                                  (AnalogReader.voltage q) (AnalogReader.other q)) k = _).
    destruct q as [l v o]. cbn [AnalogReader.light AnalogReader.voltage AnalogReader.other] in *.
    split; [exact E |].
    intros Hlen. rewrite E. f_equal. now apply nth_overflow.
Qed.

Lemma physical_order_length (self : AnalogReader.t) :
  List.length (AnalogReader.physical_order self) = List.length (AnalogReader.layout self).
Proof.
  unfold AnalogReader.physical_order, AnalogReader.enumerate.
  rewrite length_app, !length_map, !length_combine, !length_seq, !Nat.min_id.
  rewrite <- length_app, firstn_skipn. reflexivity.
Qed.

(** The three role filters split the physical channels. *)
Lemma role_filters_partition (chs : list (AnalogReader.device * nat * ascii)) :
  (List.length (filter (AnalogReader.has_role AnalogReader.Light) chs)
   + List.length (filter (AnalogReader.has_role AnalogReader.Voltage) chs)
   + List.length (filter (AnalogReader.has_role AnalogReader.Generic) chs)
   = List.length chs)%nat.
Proof.
  unfold AnalogReader.has_role.
  induction chs as [| ch rest IH]; [reflexivity |].
  cbn [filter].
  destruct (AnalogReader.role_of (snd ch)); cbn [AnalogReader.role_eqb List.length]; lia.
Qed.

Lemma Forall2_In_left {A B} (R : A -> B -> Prop) (l1 : list A) (l2 : list B) (a : A) :
  Forall2 R l1 l2 -> In a l1 -> exists b, In b l2 /\ R a b.
Proof.
  induction 1 as [| x y l1 l2 Hxy _ IH]; intros Hin; [destruct Hin |].
  destruct Hin as [<- | Hin].
  - exists y. split; [now left | exact Hxy].
  - destruct (IH Hin) as [b [Hb Hab]]. exists b. split; [now right | exact Hab].
Qed.

(** C7: when reading a channel raises a bus fault, that channel's reading
    is the sentinel -1 and the acquisition goes on: every channel of both
    converters still puts its reading into its role queue, a channel that
    did not fault its calibrated value (all 8 channels of an 8-character
    layout, so 7 fault-free ones when exactly one faults). *)
Theorem faulting_channel_is_sentinel
  (self : AnalogReader.t) (hw : AnalogReader.adc_oracle) :
  AnalogReader.bus_faults_only hw ->
  exists q,
    AnalogReader.read_queues self hw = Ok q
    /\ (forall r, Forall2 (fun ch x => AnalogReader.channel_reading hw ch = Ok x)
                    (AnalogReader.role_channels r self) (AnalogReader.queue_of r q))
    /\ (forall d i c, In (d, i, c) (AnalogReader.physical_order self) ->
          exists x, In x (AnalogReader.queue_of (AnalogReader.role_of c) q)
            /\ AnalogReader.channel_reading hw (d, i, c) = Ok x
            /\ (forall e, hw d i = Raise e -> x = PFloat (-1) /\ (num x == -1)%Q)
            /\ (forall v, hw d i = Ok v ->
                  AnalogReader.calibrated (AnalogReader.role_of c) v = Ok x
                  /\ exists n, x = PInt n))
    /\ (List.length (AnalogReader.light q) + List.length (AnalogReader.voltage q)
        + List.length (AnalogReader.other q)
        = List.length (AnalogReader.layout self))%nat.
Proof.
  intros Hbus. destruct (read_queues_spec hw Hbus self) as [q [Hq Hroles]].
  exists q. split; [exact Hq |]. split; [exact Hroles |]. split.
  - intros d i c Hin.
    assert (Hrole : In (d, i, c) (AnalogReader.role_channels (AnalogReader.role_of c) self)).
    { apply filter_In. split; [exact Hin |].
      unfold AnalogReader.has_role. cbn [snd].
      destruct (AnalogReader.role_of c); reflexivity. }
    destruct (Forall2_In_left _ _ _ _ (Hroles (AnalogReader.role_of c)) Hrole)
      as [x [Hx Hread]].
    exists x. split; [exact Hx |]. split; [exact Hread |]. split.
    + intros e He.
      rewrite (channel_reading_fault hw d i c e He (Hbus d i e He)) in Hread.
      injection Hread as <-. split; reflexivity.
    + intros v Hv. unfold AnalogReader.channel_reading in Hread. rewrite Hv in Hread.
      split; [exact Hread |].
      destruct (calibrated_is_int (AnalogReader.role_of c) v) as [n Hn].
      exists n. congruence.
  - rewrite <- physical_order_length.
    rewrite <- (role_filters_partition (AnalogReader.physical_order self)).
    pose proof (Forall2_length (Hroles AnalogReader.Light)) as HL.
    pose proof (Forall2_length (Hroles AnalogReader.Voltage)) as HV.
    pose proof (Forall2_length (Hroles AnalogReader.Generic)) as HG.
    unfold AnalogReader.role_channels in HL, HV, HG.
    cbn [AnalogReader.queue_of] in HL, HV, HG. lia.
Qed.

(** C8: with layout "vvll____" and output order "lvlv" the result is
    exactly [light0, voltage0, light1, voltage1], the N-th readings of each
    role in physical read order: the light channels are device A channels
    2 and 3, the voltage channels device A channels 0 and 1. *)
Theorem lvlv_reassembly (self : AnalogReader.t) (hw : AnalogReader.adc_oracle) :
  AnalogReader.layout self = list_ascii_of_string "vvll____" ->
  AnalogReader.bus_faults_only hw ->
  AnalogReader.role_channels AnalogReader.Light self
  = [(AnalogReader.adc_1, 2%nat, "l"%char); (AnalogReader.adc_1, 3%nat, "l"%char)]
  /\ AnalogReader.role_channels AnalogReader.Voltage self
     = [(AnalogReader.adc_1, 0%nat, "v"%char); (AnalogReader.adc_1, 1%nat, "v"%char)]
  /\ exists light0 light1 voltage0 voltage1,
       AnalogReader.read_light_sensor (hw AnalogReader.adc_1) 2 = Ok light0
       /\ AnalogReader.read_light_sensor (hw AnalogReader.adc_1) 3 = Ok light1
       /\ AnalogReader.read_voltage_sensor (hw AnalogReader.adc_1) 0 = Ok voltage0
       /\ AnalogReader.read_voltage_sensor (hw AnalogReader.adc_1) 1 = Ok voltage1
       /\ AnalogReader.read_sensor_values self hw (list_ascii_of_string "lvlv")
          = Ok [light0; voltage0; light1; voltage1].
Proof.
  intros Hlayout Hbus.
  assert (HL : AnalogReader.role_channels AnalogReader.Light self
               = [(AnalogReader.adc_1, 2%nat, "l"%char); (AnalogReader.adc_1, 3%nat, "l"%char)]).
  { unfold AnalogReader.role_channels, AnalogReader.physical_order.
    rewrite Hlayout. reflexivity. }
  assert (HV : AnalogReader.role_channels AnalogReader.Voltage self
               = [(AnalogReader.adc_1, 0%nat, "v"%char); (AnalogReader.adc_1, 1%nat, "v"%char)]).
  { unfold AnalogReader.role_channels, AnalogReader.physical_order.
    rewrite Hlayout. reflexivity. }
  split; [exact HL |]. split; [exact HV |].
  destruct (read_queues_spec hw Hbus self) as [q [Hq Hroles]].
  pose proof (Hroles AnalogReader.Light) as FL. rewrite HL in FL.
  pose proof (Hroles AnalogReader.Voltage) as FV. rewrite HV in FV.
  destruct q as [l v o]. cbn [AnalogReader.queue_of AnalogReader.light AnalogReader.voltage] in FL, FV.
  inversion FL as [| ? light0 ? l' R0 FL' ]; subst.
  inversion FL' as [| ? light1 ? l'' R1 FL'' ]; subst.
  inversion FL''; subst.
  inversion FV as [| ? voltage0 ? v' S0 FV' ]; subst.
  inversion FV' as [| ? voltage1 ? v'' S1 FV'' ]; subst.
  inversion FV''; subst.
  rewrite channel_reading_eq in R0, R1, S0, S1.
  exists light0, light1, voltage0, voltage1.
  repeat (split; [assumption |]).
  unfold AnalogReader.read_sensor_values. rewrite Hq. reflexivity.
Qed.

(** ** The telemetry loop *)

Section Traces.

Import Telemetry.
Local Open Scope tel_scope.

Variable P : event -> Prop.

Lemma extends_ret {A} (a : A) : extends P (ret a).
Proof. intros tr r tr' [= <- <-]. exists []. now rewrite app_nil_r. Qed.

Lemma extends_raise {A} (e : exn) : extends P (@raise A e).
Proof. intros tr r tr' [= <- <-]. exists []. now rewrite app_nil_r. Qed.

Lemma extends_hang {A} : extends P (@hang A).
Proof. intros tr r tr' [= <- <-]. exists []. now rewrite app_nil_r. Qed.

Lemma extends_lift {A} (r : result A) : extends P (lift r).
Proof. destruct r; [apply extends_ret | apply extends_raise]. Qed.

Lemma extends_emit (ev : event) : P ev -> extends P (emit ev).
Proof. intros Hev tr r tr' [= <- <-]. exists [ev]. split; [reflexivity | now constructor]. Qed.

Lemma extends_mbind {A B} (m : M A) (k : A -> M B) :
  extends P m -> (forall a, extends P (k a)) -> extends P (mbind m k).
Proof.
  intros Hm Hk tr r tr' H. unfold mbind in H.
  destruct (m tr) as [[a | e |] tr1] eqn:E; destruct (Hm _ _ _ E) as [evs1 [-> F1]].
  - destruct (Hk a _ _ _ H) as [evs2 [-> F2]].
    exists (evs1 ++ evs2). split; [now rewrite app_assoc | now apply Forall_app].
  - injection H as <- <-. eauto.
  - injection H as <- <-. eauto.
Qed.

Lemma extends_try_except {A} (m : M A) (h : exn -> M A) :
  extends P m -> (forall e, extends P (h e)) -> extends P (try_except m h).
Proof.
  intros Hm Hh tr r tr' H. unfold try_except in H.
  destruct (m tr) as [[a | e |] tr1] eqn:E; destruct (Hm _ _ _ E) as [evs1 [-> F1]].
  - injection H as <- <-. eauto.
  - destruct (Hh e _ _ _ H) as [evs2 [-> F2]].
    exists (evs1 ++ evs2). split; [now rewrite app_assoc | now apply Forall_app].
  - injection H as <- <-. eauto.
Qed.

Lemma extends_map_M {X Y} (f : X -> M Y) (xs : list X) :
  (forall x, extends P (f x)) -> extends P (map_M f xs).
Proof.
  intros Hf. induction xs as [| x rest IH]; cbn [map_M].
  - apply extends_ret.
  - apply extends_mbind; [apply Hf | intros y].
    apply extends_mbind; [exact IH | intros ys; apply extends_ret].
Qed.

Lemma extends_idle (n : nat) : P Idle -> extends P (idle n).
Proof.
  intros HI. induction n as [| n IH]; cbn [idle].
  - apply extends_ret.
  - apply extends_mbind; [now apply extends_emit | intros _; exact IH].
Qed.

Lemma extends_wait (w : wait_outcome) : P Idle -> extends P (wait w).
Proof.
  intros HI. destruct w; cbn [wait].
  - now apply extends_idle.
  - apply extends_mbind; [now apply extends_idle | intros _; apply extends_raise].
  - apply extends_hang.
Qed.

End Traces.

(** One step of a proof that a statement only adds events of one kind. *)
Ltac trace_step :=
  match goal with
  | |- forall _, _ => intro
  | |- Telemetry.extends _ (Telemetry.mbind _ _) => apply extends_mbind
  | |- Telemetry.extends _ (Telemetry.map_M _ _) => apply extends_map_M
  | |- Telemetry.extends _ (Telemetry.emit _) =>
      apply extends_emit; first [reflexivity | split; reflexivity]
  | |- Telemetry.extends _ (Telemetry.lift _) => apply extends_lift
  | |- Telemetry.extends _ (Telemetry.ret _) => apply extends_ret
  | |- Telemetry.extends _ (Telemetry.raise _) => apply extends_raise
  | |- Telemetry.extends _ (Telemetry.wait _) =>
      apply extends_wait; first [reflexivity | split; reflexivity]
  | |- Telemetry.extends _ (if ?b then _ else _) => destruct b
  | |- Telemetry.extends _ (match ?x with _ => _ end) => destruct x
  end.

Section Loop.

Import Telemetry.
Local Open Scope tel_scope.

Variable cfg : config.

(** Nothing but the [except KeyboardInterrupt] handler releases the link. *)
Lemma polling_keeps_link (env : cycle_env) : extends keeps_link (polling cfg env).
Proof. unfold polling. repeat trace_step. Qed.

(** The inner [try], case by case. *)
Lemma reporting_eq (env : cycle_env) (data : list pyval) (tr : list event) :
  reporting env data tr =
  if connected_before_post env then
    match post env with
    | Raise e => (Exc e, tr ++ [Post data])
    | Ok r =>
        match json r with
        | Raise e => (Exc e, tr ++ [Post data])
        | Ok b =>
            match endLoop b with
            | Raise e => (Exc e, tr ++ [Post data])
            | Ok stop => (Val (if stop then Break else Continue), tr ++ [Post data])
            end
        end
    end
  else (Exc AttributeError, tr).
Proof.
  unfold reporting, mbind.
  destruct (connected_before_post env); [| reflexivity].
  cbn [emit]. destruct (post env) as [r | e]; [| reflexivity].
  cbn [lift ret]. destruct (json r) as [b | e]; [| reflexivity].
  cbn [lift ret]. destruct (endLoop b) as [[|] | e]; reflexivity.
Qed.

Lemma reporting_keeps_link (env : cycle_env) (data : list pyval) :
  extends keeps_link (reporting env data).
Proof. unfold reporting. repeat trace_step. Qed.

Lemma recover_keeps_link (env : cycle_env) : extends keeps_link (recover env).
Proof. unfold recover. repeat trace_step. Qed.

Lemma cycle_keeps_link (env : cycle_env) : extends keeps_link (cycle cfg env).
Proof.
  unfold cycle.
  apply extends_mbind; [apply polling_keeps_link | intros data].
  apply extends_mbind.
  - apply extends_try_except; [apply reporting_keeps_link | intros e].
    destruct (caught e); [| apply extends_raise].
    apply extends_mbind; [apply recover_keeps_link | intros _; apply extends_ret].
  - intros [|]; repeat trace_step.
Qed.

Lemma loop_keeps_link (envs : list cycle_env) : extends keeps_link (loop cfg envs).
Proof.
  induction envs as [| env rest IH]; cbn [loop].
  - apply extends_hang.
  - apply extends_mbind; [apply cycle_keeps_link | intros [|]];
      [exact IH | apply extends_ret].
Qed.

Lemma setup_keeps_link (run : run_env) : extends keeps_link (setup run).
Proof. unfold setup. repeat trace_step. Qed.

Lemma extends_try_except_raised {A} (Q : event -> Prop) (m : M A) (h : exn -> M A) :
  extends Q m ->
  (forall e tr tr', m tr = (Exc e, tr') -> extends Q (h e)) ->
  extends Q (try_except m h).
Proof.
  intros Hm Hh tr r tr' H. unfold try_except in H.
  destruct (m tr) as [[a | e |] tr1] eqn:E; destruct (Hm _ _ _ E) as [evs1 [-> F1]].
  - injection H as <- <-. eauto.
  - destruct (Hh e _ _ E _ _ _ H) as [evs2 [-> F2]].
    exists (evs1 ++ evs2). split; [now rewrite app_assoc | now apply Forall_app].
  - injection H as <- <-. eauto.
Qed.

Lemma reporting_raises (env : cycle_env) (data : list pyval) (e : exn) (tr tr' : list event) :
  reporting env data tr = (Exc e, tr') -> report_exn env = Some e.
Proof.
  rewrite reporting_eq. unfold report_exn.
  destruct (connected_before_post env); [| congruence].
  destruct (post env) as [r | e0]; [| congruence].
  destruct (json r) as [b | e0]; [| congruence].
  destruct (endLoop b) as [stop | e0]; congruence.
Qed.

(** What [reconnects] says in terms of the environment. *)
Lemma reconnects_true (env : cycle_env) :
  reconnects env = true ->
  connected_before_post env = true
  /\ report_raises_caught env
  /\ connected_after_error env = false.
Proof.
  unfold reconnects, report_exn, report_raises_caught.
  destruct (connected_before_post env); [| discriminate].
  destruct (post env) as [r | e].
  - destruct (json r) as [b | e] eqn:Ej.
    + destruct (endLoop b) as [stop | e] eqn:Eb; [discriminate |].
      intros [Hc Hd]%andb_prop. apply negb_true_iff in Hd.
      repeat split; [| exact Hd]. exists e. split; [exact Hc |].
      right. exists r. split; [reflexivity |]. right. exists b. now split.
    + intros [Hc Hd]%andb_prop. apply negb_true_iff in Hd.
      repeat split; [| exact Hd]. exists e. split; [exact Hc |].
      right. exists r. split; [reflexivity |]. now left.
  - intros [Hc Hd]%andb_prop. apply negb_true_iff in Hd.
    repeat split; [| exact Hd]. exists e. split; [exact Hc |]. now left.
Qed.

(** A pass that does not enter the reconnection never calls
    [wlan.connect]. *)
Lemma cycle_without_reconnect (env : cycle_env) :
  reconnects env = false ->
  extends (fun ev => is_reconnect ev = false) (cycle cfg env).
Proof.
  intros Hn. unfold cycle.
  apply extends_mbind; [unfold polling; repeat trace_step | intros data].
  apply extends_mbind; [| intros [|]; repeat trace_step].
  apply extends_try_except_raised; [unfold reporting; repeat trace_step |].
  intros e tr tr' Hraised. apply reporting_raises in Hraised.
  unfold reconnects in Hn. rewrite Hraised in Hn.
  destruct (caught e); [| apply extends_raise].
  cbn [andb] in Hn. unfold recover. rewrite Hn. repeat trace_step.
Qed.

(** A pass ends in [break] only on a reply whose [endLoop] is true. *)
Lemma cycle_break (env : cycle_env) (tr tr' : list event) :
  cycle cfg env tr = (Val Break, tr') ->
  connected_before_post env = true /\ replies_endLoop env.
Proof.
  unfold cycle, mbind at 1 2.
  destruct (polling cfg env tr) as [[data | e |] tr0]; try discriminate.
  unfold try_except. rewrite reporting_eq. unfold replies_endLoop.
  assert (Hcont : forall t, (emit Sleep ;; lift (sleep env) ;; ret Continue) t
                            <> (Val Break, tr')).
  { intros t. unfold mbind, emit. destruct (sleep env); cbn; discriminate. }
  assert (Hhandler : forall e t c t',
             (if caught e then recover env ;; ret Continue else raise e) t = (Val c, t')
             -> c = Continue).
  { intros e t c t'. destruct (caught e); [| discriminate].
    unfold mbind, ret. destruct (recover env t) as [[[] | e' |] t'']; congruence. }
  assert (Hexc : forall e t,
             (let (r, t') := (if caught e then recover env ;; ret Continue else raise e) t in
              match r with
              | Val a =>
                  match a with
                  | Continue => emit Sleep ;; lift (sleep env) ;; ret Continue
                  | Break => ret Break
                  end t'
              | Exc e' => (Exc e', t')
              | Hang => (Hang, t')
              end) <> (Val Break, tr')).
  { intros e t.
    destruct ((if caught e then recover env ;; ret Continue else raise e) t)
      as [[c | e' |] t'] eqn:Eh; try discriminate.
    apply Hhandler in Eh. subst c. apply Hcont. }
  destruct (connected_before_post env).
  - destruct (post env) as [r | e]; [| intros H; now apply Hexc in H].
    destruct (json r) as [b | e] eqn:Ej; [| intros H; now apply Hexc in H].
    destruct (endLoop b) as [[|] | e] eqn:Eb.
    + intros _. split; [reflexivity |]. exists r, b. repeat split; assumption.
    + intros H. now apply Hcont in H.
    + intros H. now apply Hexc in H.
  - intros H. now apply Hexc in H.
Qed.

(** The loop is left normally only by the [break]. *)
Lemma loop_returns (envs : list cycle_env) :
  forall tr tr',
    loop cfg envs tr = (Val tt, tr') ->
    exists before env after,
      envs = before ++ env :: after
      /\ connected_before_post env = true
      /\ replies_endLoop env.
Proof.
  induction envs as [| env rest IH]; intros tr tr' H; cbn [loop] in H.
  - discriminate.
  - unfold mbind in H.
    destruct (cycle cfg env tr) as [[[|] | e |] t] eqn:E; try discriminate.
    + destruct (IH _ _ H) as [before [env' [after [-> Hrest]]]].
      exists (env :: before), env', after. split; [reflexivity | exact Hrest].
    + exists [], env, rest. split; [reflexivity | eapply cycle_break; eassumption].
Qed.

End Loop.

Section Release.

Import Telemetry.

Lemma count_app (p : event -> bool) (a b : list event) :
  count p (a ++ b) = (count p a + count p b)%nat.
Proof. unfold count. now rewrite filter_app, length_app. Qed.

Lemma count_keeps_link (evs : list event) :
  Forall keeps_link evs -> count is_disconnect evs = 0%nat /\ count is_deactivate evs = 0%nat.
Proof.
  unfold count. induction 1 as [| ev evs [Hd Ha] _ [IHd IHa]]; [now split |].
  cbn [filter]. now rewrite Hd, Ha.
Qed.

(** A timeout of the first ranger leaves the pass at line 194, before the
    sensor bank is read and before anything is posted. *)
Lemma ranger_timeout_leaves_cycle
  (cfg : config) (env : cycle_env) (s : HCSR04.t) (others : list HCSR04.t)
  (tr : list event) :
  distance_sensors cfg = s :: others ->
  pulses env 0%nat = HCSR04.PulseOSError HCSR04.ETIMEDOUT ->
  cycle cfg env tr = (Exc HCSR04.OutOfRange, tr ++ [Measure 0]).
Proof.
  intros Hs Hp. unfold cycle, polling. rewrite Hs.
  destruct others as [| s' others]; cbn; rewrite Hp; reflexivity.
Qed.

End Release.

(** C4 (the code departs from it): a pass in which the ranger raises
    [OutOfRange] does not degrade the reading to a sentinel: the exception
    leaves the pass, the loop and [start]; the sensor bank is not read,
    nothing is posted and the link is not released. *)
Theorem ranger_timeout_aborts_start :
  Telemetry.start Examples.node
    (Examples.run_of [Examples.no_echo; Examples.pass true] true) []
  = (Telemetry.Exc HCSR04.OutOfRange,
     [Telemetry.WlanActive true; Telemetry.WlanConnect; Telemetry.Idle;
      Telemetry.Measure 0]).
Proof. reflexivity. Qed.

(** Leaving the loop by [break] returns from [start] with the trace of
    the loop: lines 221-224 are not run, so nothing releases the link. *)
Lemma break_exit_releases_nothing
  (cfg : Telemetry.config) (run : Telemetry.run_env) (tr0 tr1 : list Telemetry.event) :
  Telemetry.setup run [] = (Telemetry.Val tt, tr0) ->
  Telemetry.loop cfg (Telemetry.script run) tr0 = (Telemetry.Val tt, tr1) ->
  Telemetry.start cfg run [] = (Telemetry.Val tt, tr1)
  /\ Telemetry.count Telemetry.is_disconnect tr1 = 0%nat
  /\ Telemetry.count Telemetry.is_deactivate tr1 = 0%nat.
Proof.
  intros Hs Hl. split.
  - unfold Telemetry.start, Telemetry.mbind. rewrite Hs.
    unfold Telemetry.try_except. rewrite Hl. reflexivity.
  - destruct (setup_keeps_link run _ _ _ Hs) as [evs0 [E0 F0]].
    destruct (loop_keeps_link cfg _ _ _ _ Hl) as [evs1 [E1 F1]].
    cbn [app] in E0. subst tr0 tr1.
    destruct (count_keeps_link _ F0) as [D0 A0].
    destruct (count_keeps_link _ F1) as [D1 A1].
    rewrite !count_app. lia.
Qed.

(** C5 (the code departs from it): a reply whose [endLoop] is true ends
    the loop by [break], and [start] returns without [wlan.disconnect()]
    and without [wlan.active(False)]; the interrupt path of the same
    [start] does release the link, disconnect then deactivate, once
    each. *)
Theorem endLoop_exit_skips_release :
  (exists tr,
      Telemetry.start Examples.node
        (Examples.run_of [Examples.pass false; Examples.pass true] true) []
      = (Telemetry.Val tt, tr)
      /\ Telemetry.replies_endLoop (Examples.pass true)
      /\ Telemetry.count Telemetry.is_disconnect tr = 0%nat
      /\ Telemetry.count Telemetry.is_deactivate tr = 0%nat)
  /\ (exists tr,
        Telemetry.start Examples.node
          (Examples.run_of [Examples.pass false; Examples.interrupted_sleep] true) []
        = (Telemetry.Val tt, tr ++ [Telemetry.WlanDisconnect; Telemetry.WlanActive false])
        /\ Telemetry.count Telemetry.is_disconnect tr = 0%nat
        /\ Telemetry.count Telemetry.is_deactivate tr = 0%nat).
Proof.
  split.
  - eexists. split; [vm_compute; reflexivity |]. split.
    + eexists. eexists. repeat split.
    + split; vm_compute; reflexivity.
  - eexists
      ([Telemetry.WlanActive true; Telemetry.WlanConnect; Telemetry.Idle;
        Telemetry.Measure 0; Telemetry.ReadBank; Telemetry.Post Scenarios.record;
        Telemetry.Sleep; Telemetry.Measure 0; Telemetry.ReadBank;
        Telemetry.Post Scenarios.record; Telemetry.Sleep]).
    split; [vm_compute; reflexivity | split; vm_compute; reflexivity].
Qed.

(** C10: in a pass that finds the link down before the post, [response]
    stays [None] and [response.json()] raises [AttributeError], which the
    inner [except] does not name: the pass, the loop and [start]'s [try]
    are left by that exception, with no post and no reconnection; a pass
    calls [wlan.connect] only when the post, [response.json()] or
    [body["endLoop"]] raised [IndexError], [KeyError] or [OSError] (and
    the link is then found down). *)
Theorem link_down_before_post
  (cfg : Telemetry.config) (env : Telemetry.cycle_env)
  (rest : list Telemetry.cycle_env) (run : Telemetry.run_env)
  (data : list pyval) (tr tr1 : list Telemetry.event) :
  Telemetry.polling cfg env tr = (Telemetry.Val data, tr1) ->
  Telemetry.connected_before_post env = false ->
  Telemetry.reporting env data tr1 = (Telemetry.Exc AttributeError, tr1)
  /\ Telemetry.caught AttributeError = false
  /\ Telemetry.cycle cfg env tr = (Telemetry.Exc AttributeError, tr1)
  /\ Telemetry.loop cfg (env :: rest) tr = (Telemetry.Exc AttributeError, tr1)
  /\ Telemetry.try_except (Telemetry.loop cfg (env :: rest)) (Telemetry.on_interrupt run) tr
     = (Telemetry.Exc AttributeError, tr1)
  /\ forall (env' : Telemetry.cycle_env) (r : Telemetry.res Telemetry.ctl)
            (tr' evs : list Telemetry.event),
       Telemetry.cycle cfg env' tr' = (r, tr' ++ evs) ->
       In Telemetry.WlanConnect evs ->
       Telemetry.connected_before_post env' = true
       /\ Telemetry.report_raises_caught env'
       /\ Telemetry.connected_after_error env' = false.
Proof.
  intros Hpoll Hdown.
  assert (Hrep : Telemetry.reporting env data tr1 = (Telemetry.Exc AttributeError, tr1)).
  { rewrite reporting_eq, Hdown. reflexivity. }
  assert (Hcyc : Telemetry.cycle cfg env tr = (Telemetry.Exc AttributeError, tr1)).
  { unfold Telemetry.cycle, Telemetry.mbind at 1 2. rewrite Hpoll.
    unfold Telemetry.try_except. rewrite Hrep. reflexivity. }
  assert (Hloop : Telemetry.loop cfg (env :: rest) tr = (Telemetry.Exc AttributeError, tr1)).
  { cbn [Telemetry.loop]. unfold Telemetry.mbind. rewrite Hcyc. reflexivity. }
  repeat (split; [first [assumption | reflexivity] |]).
  split.
  - unfold Telemetry.try_except. rewrite Hloop. reflexivity.
  - intros env' r tr' evs Hc Hin.
    apply reconnects_true.
    destruct (Telemetry.reconnects env') eqn:Hr; [reflexivity | exfalso].
    destruct (cycle_without_reconnect cfg env' Hr _ _ _ Hc) as [evs' [Heq Hall]].
    apply app_inv_head in Heq. subst evs'.
    rewrite Forall_forall in Hall. specialize (Hall _ Hin). discriminate.
Qed.

Lemma link_down_before_post_witness :
  Telemetry.cycle Examples.node Examples.link_down [] 
  = (Telemetry.Exc AttributeError, [Telemetry.Measure 0; Telemetry.ReadBank])
  /\ Telemetry.loop Examples.node [Examples.link_down; Examples.pass true] []
     = (Telemetry.Exc AttributeError, [Telemetry.Measure 0; Telemetry.ReadBank]).
Proof.
  destruct (link_down_before_post Examples.node Examples.link_down
              [Examples.pass true] (Examples.run_of [] true)
              [PInt 7; PInt 171; PInt 0; PInt 0; PInt 20; PInt 20; PInt 9580]
              [] [Telemetry.Measure 0; Telemetry.ReadBank] eq_refl eq_refl)
    as [_ [_ [Hc [Hl _]]]].
  split; [exact Hc | exact Hl].
Defined.

(** ** The theorems of the sensor bank at a concrete bus: device A channel
    1 faults. *)

Ltac one_fault_only_bus_faults :=
  intros d i e; destruct d; [destruct i as [| [| i]] |];
  cbn; intros H; inversion H; reflexivity.

Lemma read_all_follows_order_witness :
  exists data,
    AnalogReader.read_sensor_values Examples.bank Examples.one_fault Telemetry.vvll_ = Ok data
    /\ List.length data = 5%nat.
Proof.
  destruct (read_all_follows_order Examples.bank Examples.one_fault Telemetry.vvll_
              ltac:(one_fault_only_bus_faults))
    as [q [data [_ [Hdata [Hlen _]]]]].
  exists data. split; [exact Hdata | exact Hlen].
Defined.

Lemma faulting_channel_is_sentinel_witness :
  exists q,
    AnalogReader.read_queues Examples.bank Examples.one_fault = Ok q
    /\ (List.length (AnalogReader.light q) + List.length (AnalogReader.voltage q)
        + List.length (AnalogReader.other q) = 8)%nat.
Proof.
  destruct (faulting_channel_is_sentinel Examples.bank Examples.one_fault
              ltac:(one_fault_only_bus_faults))
    as [q [Hq [_ [_ Hlen]]]].
  exists q. split; [exact Hq | exact Hlen].
Defined.

Lemma lvlv_reassembly_witness :
  exists light0 light1 voltage0 voltage1,
    AnalogReader.read_voltage_sensor (Examples.one_fault AnalogReader.adc_1) 1 = Ok voltage1
    /\ AnalogReader.read_sensor_values Examples.bank Examples.one_fault
         (list_ascii_of_string "lvlv")
       = Ok [light0; voltage0; light1; voltage1].
Proof.
  destruct (lvlv_reassembly Examples.bank Examples.one_fault eq_refl
              ltac:(one_fault_only_bus_faults))
    as [_ [_ [light0 [light1 [voltage0 [voltage1 [_ [_ [_ [Hv1 Hdata]]]]]]]]]].
  exists light0, light1, voltage0, voltage1. split; [exact Hv1 | exact Hdata].
Defined.

(** The same run, evaluated: the faulting voltage channel is -1.0, the
    other three readings are their buckets. *)
Example lvlv_with_one_fault :
  AnalogReader.read_sensor_values Examples.bank Examples.one_fault
    (list_ascii_of_string "lvlv")
  = Ok [PInt 20; PInt 0; PInt 20; PFloat (-1)].
Proof. reflexivity. Qed.

Example vvll_with_one_fault :
  AnalogReader.read_sensor_values Examples.bank Examples.one_fault Telemetry.vvll_
  = Ok [PInt 0; PFloat (-1); PInt 20; PInt 20; PInt 20000].
Proof. reflexivity. Qed.

(** A layout with a single light channel asked for two light readings:
    the second is 0.0. *)
Example exhausted_queue_gives_zero :
  AnalogReader.read_sensor_values
    {| AnalogReader.addr_1 := 72; AnalogReader.addr_2 := 73;
       AnalogReader.layout := list_ascii_of_string "l_______" |}
    Examples.steady (list_ascii_of_string "ll")
  = Ok [PInt 20; PFloat 0].
Proof. reflexivity. Qed.

(** * Further properties of the code *)

(** ** The ranger's two accessors *)

(** X1: on the same outcome of the pulse wait the two accessors fail with
    the same exception or both succeed; for a pulse width within the
    default timeout (0..30000) the millimetres are then the centimetres
    times ten rounded down, for the 32-bit and the 64-bit float alike,
    whether the product by ten is taken exactly or in floating point. *)
Theorem accessors_agree
  (fmt : Ieee.format) (self : HCSR04.t) (hw : HCSR04.pulse_outcome) :
  fmt = Ieee.binary32 \/ fmt = Ieee.binary64 ->
  match HCSR04.distance_mm self hw, Ieee.distance_cm fmt self hw with
  | Ok mm, Ok cm =>
      forall t, hw = HCSR04.Echo t -> 0 <= t <= HCSR04.default_echo_timeout_us ->
        exists v v10,
          Ieee.value cm = Some v
          /\ mm = Qfloor (10 * v)
          /\ Ieee.value (Ieee.mul fmt (Ieee.of_int fmt 10) cm) = Some v10
          /\ mm = Qfloor v10
  | Raise e, Raise e' => e = e'
  | _, _ => False
  end.
Proof.
  intros Hfmt. destruct hw as [t | errno |].
  - cbn [HCSR04.distance_mm Ieee.distance_cm HCSR04._send_pulse_and_wait bind].
    intros t' [= <-] Hrange.
    assert (Hall : exists tol, Ieee.all_from (Ieee.accurate fmt tol) (Z.to_nat 30001) 0 = true).
    { destruct Hfmt as [-> | ->]; eexists;
        [exact accurate_binary32 | exact accurate_binary64]. }
    destruct Hall as [tol Hall].
    destruct (accurate_within_timeout fmt tol t Hall Hrange self)
      as [cm [v [Hcm [Hv [_ [Hfloor [v10 [Hv10 Hfloor10]]]]]]]].
    cbn [Ieee.distance_cm HCSR04._send_pulse_and_wait bind] in Hcm.
    injection Hcm as <-. exists v, v10. repeat split; auto.
  - unfold HCSR04.distance_mm, Ieee.distance_cm.
    destruct (HCSR04._send_pulse_and_wait self (HCSR04.PulseOSError errno)) as [t | e];
      cbn [bind]; [| reflexivity].
    intros t' H; discriminate H.
  - reflexivity.
Qed.

Lemma accessors_agree_witness :
  exists cm v,
    Ieee.distance_cm Ieee.binary32 (HCSR04.init 5 18) (HCSR04.Echo 30000) = Ok cm
    /\ Ieee.value cm = Some v
    /\ 5154 = Qfloor (10 * v).
Proof.
  pose proof (accessors_agree Ieee.binary32 (HCSR04.init 5 18) (HCSR04.Echo 30000)
                (or_introl eq_refl)) as H.
  cbn [HCSR04.distance_mm Ieee.distance_cm HCSR04._send_pulse_and_wait bind] in H.
  destruct (H 30000 eq_refl ltac:(unfold HCSR04.default_echo_timeout_us; lia))
    as [v [v10 [Hv [Hfloor _]]]].
  eexists. exists v. split; [reflexivity |]. split; [exact Hv | exact Hfloor].
Defined.

(** X2: [distance_mm] does not check the sign of the pulse width: it is
    monotone over all integers, negative exactly for a negative width
    (floor division never rounds a negative width up to 0), and at most
    5154 mm for a width within the default timeout of 30000 us. *)
Theorem distance_mm_monotone (self : HCSR04.t) (t1 t2 : Z) :
  t1 <= t2 ->
  exists m1 m2,
    HCSR04.distance_mm self (HCSR04.Echo t1) = Ok m1
    /\ HCSR04.distance_mm self (HCSR04.Echo t2) = Ok m2
    /\ m1 <= m2
    /\ (m1 < 0 <-> t1 < 0)
    /\ (t2 <= HCSR04.default_echo_timeout_us -> m2 <= 5154).
Proof.
  intros Hle. exists (t1 * 100 / 582), (t2 * 100 / 582).
  split; [reflexivity |]. split; [reflexivity |]. split; [| split].
  - apply Z.div_le_mono; lia.
  - split; intros H.
    + destruct (Z.lt_ge_cases t1 0) as [Hneg | Hpos]; [exact Hneg |].
      assert (0 <= t1 * 100 / 582) by (apply Z.div_pos; lia). lia.
    + apply Z.div_lt_upper_bound; lia.
  - unfold HCSR04.default_echo_timeout_us. intros Hmax.
    assert (t2 * 100 / 582 <= 3000000 / 582) by (apply Z.div_le_mono; lia).
    assert (3000000 / 582 = 5154) by reflexivity. lia.
Qed.

Lemma distance_mm_monotone_witness :
  exists m1 m2,
    HCSR04.distance_mm (HCSR04.init 5 18) (HCSR04.Echo (-2)) = Ok m1
    /\ HCSR04.distance_mm (HCSR04.init 5 18) (HCSR04.Echo 30000) = Ok m2
    /\ m1 <= m2.
Proof.
  destruct (distance_mm_monotone (HCSR04.init 5 18) (-2) 30000 ltac:(lia))
    as [m1 [m2 [H1 [H2 [Hle _]]]]].
  exists m1, m2. split; [exact H1 | split; [exact H2 | exact Hle]].
Defined.

(** ** The calibration tables in terms of the register value *)

(** Comparisons of a fraction with a breakpoint are comparisons of the
    register value with an integer threshold. *)
Ltac threshold :=
  match goal with
  | |- Qle_bool ?p ?f = (?t <=? ?raw) =>
      destruct (Z.leb_spec t raw) as [H | H];
      [ apply Qle_bool_iff | apply not_true_is_false; rewrite Qle_bool_iff ];
      unfold AnalogReader.light_fraction, AnalogReader.voltage_fraction,
        Qle, Qdiv, Qmult, Qinv, inject_Z; cbn [Qnum Qden]; lia
  end.

(** X3: the light reading of a register value, by integer thresholds: 220
    from 30818, 160 from 24722, 80 from 18625, 40 from 12529, 20 from
    6432, else 0. *)
Theorem light_thresholds (adc : nat -> result Z) (channel : nat) (raw : Z) :
  adc channel = Ok raw ->
  AnalogReader.read_light_sensor adc channel =
  Ok (PInt (if 30818 <=? raw then 220
            else if 24722 <=? raw then 160
            else if 18625 <=? raw then 80
            else if 12529 <=? raw then 40
            else if 6432 <=? raw then 20
            else 0)).
Proof.
  intros E. unfold AnalogReader.read_light_sensor. rewrite E. cbn [bind].
  rewrite bucket_steps. cbn [bind AnalogReader.try_except_OSError].
  replace (Qle_bool 1 (AnalogReader.light_fraction raw)) with (30818 <=? raw)
    by (symmetry; threshold).
  replace (Qle_bool (8 # 10) (AnalogReader.light_fraction raw)) with (24722 <=? raw)
    by (symmetry; threshold).
  replace (Qle_bool (6 # 10) (AnalogReader.light_fraction raw)) with (18625 <=? raw)
    by (symmetry; threshold).
  replace (Qle_bool (4 # 10) (AnalogReader.light_fraction raw)) with (12529 <=? raw)
    by (symmetry; threshold).
  replace (Qle_bool (2 # 10) (AnalogReader.light_fraction raw)) with (6432 <=? raw)
    by (symmetry; threshold).
  reflexivity.
Qed.

Lemma light_thresholds_witness :
  AnalogReader.read_light_sensor (fun _ => Ok 24721) 0%nat = Ok (PInt 80).
Proof. exact (light_thresholds (fun _ => Ok 24721) 0%nat 24721 eq_refl). Defined.

(** X4: the voltage reading of a register value, by integer thresholds:
    220 from 32236, 160 from 26823, 80 from 21410, 40 from 15996, 20 from
    10583, else 0. *)
Theorem voltage_thresholds (adc : nat -> result Z) (channel : nat) (raw : Z) :
  adc channel = Ok raw ->
  AnalogReader.read_voltage_sensor adc channel =
  Ok (PInt (if 32236 <=? raw then 220
            else if 26823 <=? raw then 160
            else if 21410 <=? raw then 80
            else if 15996 <=? raw then 40
            else if 10583 <=? raw then 20
            else 0)).
Proof.
  intros E. unfold AnalogReader.read_voltage_sensor. rewrite E. cbn [bind].
  rewrite bucket_steps. cbn [bind AnalogReader.try_except_OSError].
  replace (Qle_bool 1 (AnalogReader.voltage_fraction raw)) with (32236 <=? raw)
    by (symmetry; threshold).
  replace (Qle_bool (8 # 10) (AnalogReader.voltage_fraction raw)) with (26823 <=? raw)
    by (symmetry; threshold).
  replace (Qle_bool (6 # 10) (AnalogReader.voltage_fraction raw)) with (21410 <=? raw)
    by (symmetry; threshold).
  replace (Qle_bool (4 # 10) (AnalogReader.voltage_fraction raw)) with (15996 <=? raw)
    by (symmetry; threshold).
  replace (Qle_bool (2 # 10) (AnalogReader.voltage_fraction raw)) with (10583 <=? raw)
    by (symmetry; threshold).
  reflexivity.
Qed.

Lemma voltage_thresholds_witness :
  AnalogReader.read_voltage_sensor (fun _ => Ok 10583) 0%nat = Ok (PInt 20).
Proof. exact (voltage_thresholds (fun _ => Ok 10583) 0%nat 10583 eq_refl). Defined.

(** A bucket label is never negative. *)
Lemma bucket_nonneg (f : Q) (b : Z) : AnalogReader.bucket f = Ok b -> 0 <= b.
Proof.
  intros H. apply py_max_spec in H as [_ Hub]. apply Hub.
  apply in_or_app. right. now left.
Qed.

(** X5: a light or voltage reading is numerically -1 exactly when the
    read raised [OSError] (a reading from a register value is a label
    >= 0); the generic reader passes every register value through as an
    int, so a raw -1 gives the int -1: numerically the sentinel, but not
    the float -1.0 that a fault gives. *)
Theorem sentinel_iff_fault (adc : nat -> result Z) (channel : nat) (v : pyval) :
  (AnalogReader.read_light_sensor adc channel = Ok v ->
   ((num v == -1)%Q <-> exists a, adc channel = Raise (OSError a)))
  /\ (AnalogReader.read_voltage_sensor adc channel = Ok v ->
      ((num v == -1)%Q <-> exists a, adc channel = Raise (OSError a)))
  /\ (forall raw, adc channel = Ok raw ->
        AnalogReader.read_other_sensor adc channel = Ok (PInt raw))
  /\ (forall a, adc channel = Raise (OSError a) ->
        AnalogReader.read_other_sensor adc channel = Ok (PFloat (-1)))
  /\ (num (PInt (-1)) == num (PFloat (-1)))%Q
  /\ PInt (-1) <> PFloat (-1).
Proof.
  assert (Hnot : forall b : Z, 0 <= b -> ~ (inject_Z b == -1)%Q).
  { intros b Hb. unfold Qeq, inject_Z; cbn [Qnum Qden]. lia. }
  split; [| split; [| split; [| split; [| split; [reflexivity | discriminate]]]]].
  - destruct (adc channel) as [raw | e] eqn:E.
    + destruct (read_light_sensor_ok adc channel raw E) as [b [Hb ->]].
      intros [= <-]. cbn [num]. split; [| intros [a Ha]; discriminate].
      intros H. exfalso. exact (Hnot b (bucket_nonneg _ _ Hb) H).
    + unfold AnalogReader.read_light_sensor. rewrite E. cbn [bind].
      destruct e; cbn [AnalogReader.try_except_OSError]; try discriminate.
      intros [= <-]. cbn [num]. split; [eauto | reflexivity].
  - destruct (adc channel) as [raw | e] eqn:E.
    + destruct (read_voltage_sensor_ok adc channel raw E) as [b [Hb ->]].
      intros [= <-]. cbn [num]. split; [| intros [a Ha]; discriminate].
      intros H. exfalso. exact (Hnot b (bucket_nonneg _ _ Hb) H).
    + unfold AnalogReader.read_voltage_sensor. rewrite E. cbn [bind].
      destruct e; cbn [AnalogReader.try_except_OSError]; try discriminate.
      intros [= <-]. cbn [num]. split; [eauto | reflexivity].
  - intros raw E. unfold AnalogReader.read_other_sensor. rewrite E. reflexivity.
  - intros a E. unfold AnalogReader.read_other_sensor. rewrite E. reflexivity.
Qed.

(** ** The physical channels of a layout *)

Lemma nth_error_enumerate_from {A} (l : list A) :
  forall s k,
    nth_error (combine (seq s (List.length l)) l) k
    = option_map (fun c => ((s + k)%nat, c)) (nth_error l k).
Proof.
  induction l as [| x l IH]; intros s k.
  - destruct k; reflexivity.
  - destruct k as [| k]; cbn [List.length seq combine nth_error option_map].
    + now rewrite Nat.add_0_r.
    + rewrite IH. now rewrite Nat.add_succ_comm.
Qed.

Lemma nth_error_enumerate {A} (l : list A) (k : nat) :
  nth_error (AnalogReader.enumerate l) k = option_map (fun c => (k, c)) (nth_error l k).
Proof. unfold AnalogReader.enumerate. now rewrite nth_error_enumerate_from. Qed.

(** The [k]-th character of the layout is read on device A channel [k]
    when [k < 4] and on device B channel [k - 4] otherwise. *)
Lemma physical_order_nth (self : AnalogReader.t) (k : nat) :
  nth_error (AnalogReader.physical_order self) k =
  option_map (fun c => if (k <? 4)%nat
                       then (AnalogReader.adc_1, k, c)
                       else (AnalogReader.adc_2, (k - 4)%nat, c))
             (nth_error (AnalogReader.layout self) k).
Proof.
  unfold AnalogReader.physical_order.
  set (l := AnalogReader.layout self).
  assert (Hlen : List.length
                   (map (fun ic : nat * ascii => (AnalogReader.adc_1, fst ic, snd ic))
                      (AnalogReader.enumerate (firstn 4 l)))
                 = Nat.min 4 (List.length l)).
  { unfold AnalogReader.enumerate.
    now rewrite length_map, length_combine, length_seq, Nat.min_id, length_firstn. }
  destruct (Nat.ltb_spec k 4) as [Hk | Hk].
  - destruct (Nat.lt_ge_cases k (List.length l)) as [Hin | Hout].
    + rewrite nth_error_app1 by (rewrite Hlen; lia).
      rewrite nth_error_map, nth_error_enumerate, nth_error_firstn.
      destruct (Nat.ltb_spec k 4); [| lia].
      destruct (nth_error l k); reflexivity.
    + rewrite (proj2 (nth_error_None l k) Hout). cbn [option_map].
      apply nth_error_None. rewrite length_app, Hlen.
      unfold AnalogReader.enumerate.
      rewrite length_map, length_combine, length_seq, Nat.min_id, length_skipn. lia.
  - destruct (Nat.lt_ge_cases (List.length l) 4) as [Hshort | Hlong].
    + rewrite (proj2 (nth_error_None l k)) by lia. cbn [option_map].
      apply nth_error_None. rewrite length_app, Hlen.
      unfold AnalogReader.enumerate.
      rewrite length_map, length_combine, length_seq, Nat.min_id, length_skipn. lia.
    + rewrite nth_error_app2 by (rewrite Hlen; lia).
      rewrite Hlen, Nat.min_l by lia.
      rewrite nth_error_map, nth_error_enumerate, nth_error_skipn.
      replace (4 + (k - 4))%nat with k by lia.
      destruct (nth_error l k); reflexivity.
Qed.

(** ** Exceptions of the bus other than [OSError] *)

Section Abort.

Import AnalogReader.

Lemma for_each_app {S X} (f : S -> X -> result S) (a b : list X) :
  forall s, for_each f (a ++ b) s = (s' <- for_each f a s ;; for_each f b s').
Proof.
  induction a as [| x a IH]; intros s; cbn [app for_each bind]; [reflexivity |].
  destruct (f s x) as [s1 | e]; cbn [bind]; [apply IH | reflexivity].
Qed.

Variable hw : adc_oracle.

(** One pass over the physical channels. *)
Let step (q : queues) (ch : device * nat * ascii) : result queues :=
  acquire (hw (fst (fst ch))) q (snd (fst ch), snd ch).

Lemma for_each_step_tagged (d : device) (l : list (nat * ascii)) :
  forall q,
    for_each step (map (fun ic => (d, fst ic, snd ic)) l) q
    = for_each (acquire (hw d)) l q.
Proof.
  induction l as [| [i c] l IH]; intros q; cbn [map for_each]; [reflexivity |].
  unfold step at 1. cbn [fst snd].
  destruct (acquire (hw d) q (i, c)) as [q' | e]; cbn [bind]; [apply IH | reflexivity].
Qed.

(** The two acquisition loops are one loop over the physical order. *)
Lemma read_queues_physical (self : t) :
  read_queues self hw = for_each step (physical_order self) no_readings.
Proof.
  unfold read_queues, physical_order.
  rewrite for_each_app, for_each_step_tagged.
  destruct (for_each (acquire (hw adc_1)) (enumerate (firstn 4 (layout self))) no_readings)
    as [q |]; cbn [bind]; [| reflexivity].
  now rewrite for_each_step_tagged.
Qed.

Lemma channel_reading_benign (d : device) (i : nat) (c : ascii) :
  (forall e, hw d i = Raise e -> is_OSError e = true) ->
  exists x, channel_reading hw (d, i, c) = Ok x.
Proof.
  intros Hb. destruct (hw d i) as [v | e] eqn:E.
  - unfold channel_reading. rewrite E.
    destruct (calibrated_is_int (role_of c) v) as [n ->]. eauto.
  - exists (PFloat (-1)). eapply channel_reading_fault; eauto.
Qed.

Lemma for_each_step_benign (chs : list (device * nat * ascii)) :
  (forall d i c e, In (d, i, c) chs -> hw d i = Raise e -> is_OSError e = true) ->
  forall q, exists q', for_each step chs q = Ok q'.
Proof.
  induction chs as [| [[d i] c] chs IH]; intros Hb q; cbn [for_each].
  - eauto.
  - destruct (channel_reading_benign d i c) as [x Hx].
    { intros e. apply (Hb d i c e). now left. }
    unfold step at 1. cbn [fst snd]. rewrite acquire_eq, Hx. cbn [bind].
    apply IH. intros d' i' c' e' Hin. apply (Hb d' i' c' e'). now right.
Qed.

Lemma foreign_exception_leaves_queues
  (self : t) (before after : list (device * nat * ascii))
  (d : device) (i : nat) (c : ascii) (e : exn) :
  physical_order self = before ++ (d, i, c) :: after ->
  (forall d' i' c' e', In (d', i', c') before -> hw d' i' = Raise e' ->
                       is_OSError e' = true) ->
  hw d i = Raise e -> is_OSError e = false ->
  read_queues self hw = Raise e.
Proof.
  intros Hsplit Hbefore He Hforeign.
  rewrite read_queues_physical, Hsplit, for_each_app.
  destruct (for_each_step_benign before Hbefore no_readings) as [q ->].
  cbn [bind for_each]. unfold step at 1. cbn [fst snd].
  rewrite acquire_eq. unfold channel_reading. rewrite He.
  destruct e; try reflexivity. discriminate.
Qed.

End Abort.

(** X7: an exception of a channel read that is not an [OSError] is not
    turned into a sentinel: when the channels read before it return or
    fault with [OSError], [read_sensor_values] raises that exception,
    whatever the output order. *)
Theorem foreign_exception_aborts_read
  (self : AnalogReader.t) (hw : AnalogReader.adc_oracle) (order : list ascii)
  (before after : list (AnalogReader.device * nat * ascii))
  (d : AnalogReader.device) (i : nat) (c : ascii) (e : exn) :
  AnalogReader.physical_order self = before ++ (d, i, c) :: after ->
  (forall d' i' c' e', In (d', i', c') before -> hw d' i' = Raise e' ->
                       is_OSError e' = true) ->
  hw d i = Raise e -> is_OSError e = false ->
  AnalogReader.read_sensor_values self hw order = Raise e.
Proof.
  intros Hsplit Hbefore He Hforeign. unfold AnalogReader.read_sensor_values.
  rewrite (foreign_exception_leaves_queues hw self before after d i c e); auto.
Qed.

Lemma foreign_exception_aborts_read_witness :
  AnalogReader.read_sensor_values Examples.bank
    (fun d i => match d, i with
                | AnalogReader.adc_1, 1%nat => Raise (OSError (Errno 19))
                | AnalogReader.adc_1, 2%nat => Raise KeyboardInterrupt
                | _, _ => Ok 9580
                end)
    Telemetry.vvll_
  = Raise KeyboardInterrupt.
Proof.
  refine (foreign_exception_aborts_read Examples.bank _ Telemetry.vvll_
            [(AnalogReader.adc_1, 0%nat, "v"%char); (AnalogReader.adc_1, 1%nat, "v"%char)]
            [(AnalogReader.adc_1, 3%nat, "l"%char);
             (AnalogReader.adc_2, 0%nat, "_"%char); (AnalogReader.adc_2, 1%nat, "_"%char);
             (AnalogReader.adc_2, 2%nat, "_"%char); (AnalogReader.adc_2, 3%nat, "_"%char)]
            AnalogReader.adc_1 2%nat "l"%char KeyboardInterrupt eq_refl _ eq_refl eq_refl).
  intros d' i' c' e' [H | [H | []]]; injection H as <- <- <-; cbn;
    intros H'; inversion H'; reflexivity.
Defined.

(** ** Which channels a layout makes the reader read *)

Section Channels.

Import AnalogReader.

Lemma for_each_ext_in {S X} (f g : S -> X -> result S) (l : list X) :
  (forall s x, In x l -> f s x = g s x) ->
  forall s, for_each f l s = for_each g l s.
Proof.
  induction l as [| x l IH]; intros Hfg s; cbn [for_each]; [reflexivity |].
  rewrite (Hfg s x) by now left.
  destruct (g s x) as [s1 | e]; cbn [bind]; [| reflexivity].
  apply IH. intros s' x' Hin. apply Hfg. now right.
Qed.

Variable self : t.

(** Position [k] of the layout is position [k] of the physical order, on
    [Layout.device_of k] and [Layout.channel_of k]. *)
Lemma physical_order_layout (k : nat) :
  nth_error (physical_order self) k
  = option_map (fun c => (Layout.device_of k, Layout.channel_of k, c))
      (nth_error (layout self) k).
Proof.
  rewrite physical_order_nth. unfold Layout.device_of, Layout.channel_of.
  destruct (nth_error (layout self) k); cbn [option_map]; [| reflexivity].
  destruct (k <? 4)%nat; reflexivity.
Qed.

Lemma in_physical_order (d : device) (i : nat) (c : ascii) :
  In (d, i, c) (physical_order self) ->
  exists k, nth_error (layout self) k = Some c
            /\ d = Layout.device_of k /\ i = Layout.channel_of k.
Proof.
  intros Hin. apply In_nth_error in Hin as [k Hk].
  rewrite physical_order_layout in Hk.
  destruct (nth_error (layout self) k) as [c' |] eqn:E; [| discriminate].
  injection Hk as <- <- <-. eauto.
Qed.

(** The result depends on the bus at the channels of the layout only. *)
Lemma read_queues_agree (hw hw' : adc_oracle) :
  (forall k c, nth_error (layout self) k = Some c ->
               hw' (Layout.device_of k) (Layout.channel_of k)
               = hw (Layout.device_of k) (Layout.channel_of k)) ->
  read_queues self hw' = read_queues self hw.
Proof.
  intros Hagree. rewrite !read_queues_physical.
  apply for_each_ext_in. intros q [[d i] c] Hin. cbn [fst snd].
  destruct (in_physical_order d i c Hin) as [k [Hk [-> ->]]].
  unfold acquire, read_light_sensor, read_voltage_sensor, read_other_sensor.
  now rewrite (Hagree k c Hk).
Qed.

(** The channel of every position of the layout is read: an exception
    there that is not an [OSError] leaves the acquisition, when the
    positions before it return or fault with [OSError]. *)
Lemma read_queues_reads_position (hw : adc_oracle) (k : nat) (c : ascii) (e : exn) :
  nth_error (layout self) k = Some c ->
  hw (Layout.device_of k) (Layout.channel_of k) = Raise e ->
  is_OSError e = false ->
  (forall k' c' e', nth_error (layout self) k' = Some c' -> (k' < k)%nat ->
     hw (Layout.device_of k') (Layout.channel_of k') = Raise e' ->
     is_OSError e' = true) ->
  read_queues self hw = Raise e.
Proof.
  intros Hk He Hforeign Hbefore.
  assert (Hpo : nth_error (physical_order self) k
                = Some (Layout.device_of k, Layout.channel_of k, c))
    by (rewrite physical_order_layout, Hk; reflexivity).
  destruct (nth_error_split _ _ Hpo) as [l1 [l2 [Hsplit Hlen]]].
  apply (foreign_exception_leaves_queues hw self l1 l2 _ _ c e Hsplit); auto.
  intros d' i' c' e' Hin He'.
  apply In_nth_error in Hin as [k' Hk'].
  assert (Hlt : (k' < k)%nat) by (rewrite <- Hlen; apply nth_error_Some; congruence).
  assert (Hpo' : nth_error (physical_order self) k' = Some (d', i', c'))
    by (rewrite Hsplit, nth_error_app1 by lia; exact Hk').
  rewrite physical_order_layout in Hpo'.
  destruct (nth_error (layout self) k') as [c'' |] eqn:E; [| discriminate].
  injection Hpo' as <- <- <-. eapply Hbefore; eauto.
Qed.

End Channels.

(** X6: the layout is cut at position 4 whatever its length: for its
    character at position [k] the reader reads device A channel [k] when
    [k < 4] and device B channel [k - 4] otherwise, and it reads nothing
    else: the result depends on the bus at those channels only, and an
    exception at one of them that is not an [OSError] leaves the read.
    So a layout of at most 8 characters never reads a channel number
    above 3, and a longer one reads channel 4 of device B. *)
Theorem layout_to_channels
  (self : AnalogReader.t) (hw : AnalogReader.adc_oracle) (order : list ascii) :
  (forall hw',
      (forall k c, nth_error (AnalogReader.layout self) k = Some c ->
                   hw' (Layout.device_of k) (Layout.channel_of k)
                   = hw (Layout.device_of k) (Layout.channel_of k)) ->
      AnalogReader.read_sensor_values self hw' order
      = AnalogReader.read_sensor_values self hw order)
  /\ (forall k c e,
        nth_error (AnalogReader.layout self) k = Some c ->
        hw (Layout.device_of k) (Layout.channel_of k) = Raise e ->
        is_OSError e = false ->
        (forall k' c' e', nth_error (AnalogReader.layout self) k' = Some c' ->
           (k' < k)%nat ->
           hw (Layout.device_of k') (Layout.channel_of k') = Raise e' ->
           is_OSError e' = true) ->
        AnalogReader.read_sensor_values self hw order = Raise e)
  /\ ((List.length (AnalogReader.layout self) <= 8)%nat ->
      forall hw',
        (forall d i, (i < 4)%nat -> hw' d i = hw d i) ->
        AnalogReader.read_sensor_values self hw' order
        = AnalogReader.read_sensor_values self hw order)
  /\ ((8 < List.length (AnalogReader.layout self))%nat ->
      forall e,
        hw AnalogReader.adc_2 4%nat = Raise e ->
        is_OSError e = false ->
        (forall d i e', (i < 4)%nat -> hw d i = Raise e' -> is_OSError e' = true) ->
        AnalogReader.read_sensor_values self hw order = Raise e).
Proof.
  split; [| split; [| split]].
  - intros hw' Hagree. unfold AnalogReader.read_sensor_values.
    now rewrite (read_queues_agree self hw hw' Hagree).
  - intros k c e Hk He Hforeign Hbefore. unfold AnalogReader.read_sensor_values.
    now rewrite (read_queues_reads_position self hw k c e Hk He Hforeign Hbefore).
  - intros Hlen hw' Hagree. unfold AnalogReader.read_sensor_values.
    rewrite (read_queues_agree self hw hw'); [reflexivity |].
    intros k c Hk. apply Hagree.
    assert (k < List.length (AnalogReader.layout self))%nat
      by (apply nth_error_Some; congruence).
    unfold Layout.channel_of. destruct (Nat.ltb_spec k 4); lia.
  - intros Hlen e He Hforeign Hlow. unfold AnalogReader.read_sensor_values.
    destruct (nth_error (AnalogReader.layout self) 8) as [c |] eqn:E;
      [| apply nth_error_None in E; lia].
    rewrite (read_queues_reads_position self hw 8 c e E He Hforeign); [reflexivity |].
    intros k' c' e' Hk' Hlt. apply Hlow.
    unfold Layout.channel_of. destruct (Nat.ltb_spec k' 4); lia.
Qed.

Lemma layout_to_channels_witness :
  AnalogReader.read_sensor_values
    {| AnalogReader.addr_1 := 72; AnalogReader.addr_2 := 73;
       AnalogReader.layout := list_ascii_of_string "vvll_____" |}
    (fun d i => match d, i with
                | AnalogReader.adc_2, 4%nat => Raise KeyError
                | _, _ => Ok 9580
                end)
    Telemetry.vvll_
  = Raise KeyError.
Proof.
  refine (proj2 (proj2 (proj2 (layout_to_channels _ _ Telemetry.vvll_)))
            _ KeyError eq_refl eq_refl _).
  - cbn. lia.
  - intros d i e' Hi. destruct d; destruct i as [| [| [| [| i]]]]; cbn; try discriminate; lia.
Defined.

(** ** The shape of the telemetry record *)

Section Record.

Import Telemetry.
Local Open Scope tel_scope.

Lemma read_sensor_values_length
  (self : AnalogReader.t) (hw : AnalogReader.adc_oracle) (order : list ascii)
  (data : list pyval) :
  AnalogReader.read_sensor_values self hw order = Ok data ->
  List.length data = List.length order.
Proof.
  unfold AnalogReader.read_sensor_values.
  destruct (AnalogReader.read_queues self hw) as [q | e]; cbn [bind]; [| discriminate].
  intros [= <-]. rewrite fold_emit. cbn [app]. apply reassemble_length.
Qed.

Lemma map_M_length {X Y} (f : X -> M Y) (xs : list X) :
  forall tr ys tr', map_M f xs tr = (Val ys, tr') -> List.length ys = List.length xs.
Proof.
  induction xs as [| x rest IH]; intros tr ys tr'; cbn [map_M].
  - intros [= <- _]. reflexivity.
  - unfold mbind at 1. destruct (f x tr) as [[y | e |] t1]; try discriminate.
    unfold mbind. destruct (map_M f rest t1) as [[ys' | e |] t2] eqn:E; try discriminate.
    intros [= <- _]. cbn [List.length]. f_equal. eapply IH; eassumption.
Qed.

Variable cfg : config.

(** The record a pass assembles. *)
Let shaped (data : list pyval) : Prop :=
  List.length data
  = (1 + Nat.min 2 (List.length (distance_sensors cfg)) + 5)%nat
  /\ nth_error data 0 = Some (PInt (bot_id cfg)).

Let posts_shaped (ev : event) : Prop :=
  forall data, ev = Post data -> shaped data.

Lemma polling_shaped (env : cycle_env) (tr tr' : list event) (data : list pyval) :
  polling cfg env tr = (Val data, tr') -> shaped data.
Proof.
  unfold polling, mbind at 1.
  match goal with
  | |- context [map_M ?f ?xs tr] => destruct (map_M f xs tr) as [[dists | e |] t1] eqn:Ed
  end; try discriminate.
  apply map_M_length in Ed.
  unfold mbind, emit, lift.
  destruct (AnalogReader.read_sensor_values (ads cfg) (adc env) vvll_) as [bank | e] eqn:Eb;
    [| discriminate].
  apply read_sensor_values_length in Eb.
  intros [= <- _]. split; [| reflexivity].
  cbn [app List.length]. rewrite length_app, length_map, Ed, Eb.
  unfold AnalogReader.enumerate.
  rewrite length_combine, length_seq, Nat.min_id, length_firstn. reflexivity.
Qed.

Lemma extends_mbind_val {A B} (Q : event -> Prop) (m : M A) (k : A -> M B) :
  extends Q m ->
  (forall a tr tr', m tr = (Val a, tr') -> extends Q (k a)) ->
  extends Q (mbind m k).
Proof.
  intros Hm Hk tr r tr' H. unfold mbind in H.
  destruct (m tr) as [[a | e |] tr1] eqn:E; destruct (Hm _ _ _ E) as [evs1 [-> F1]].
  - destruct (Hk a _ _ E _ _ _ H) as [evs2 [-> F2]].
    exists (evs1 ++ evs2). split; [now rewrite app_assoc | now apply Forall_app].
  - injection H as <- <-. eauto.
  - injection H as <- <-. eauto.
Qed.

(** One step of a proof that a statement posts shaped records only. *)
Ltac posts_step :=
  match goal with
  | |- forall _, _ => intro
  | |- extends _ (mbind _ _) => apply extends_mbind
  | |- extends _ (map_M _ _) => apply extends_map_M
  | H : shaped ?d |- extends _ (emit (Post ?d)) =>
      apply extends_emit; intros d' [= <-]; exact H
  | |- extends _ (emit _) => apply extends_emit; intros d' Hd'; discriminate Hd'
  | |- extends _ (lift _) => apply extends_lift
  | |- extends _ (ret _) => apply extends_ret
  | |- extends _ (raise _) => apply extends_raise
  | |- extends _ (wait _) => apply extends_wait; intros d' Hd'; discriminate Hd'
  | |- extends _ (if ?b then _ else _) => destruct b
  | |- extends _ (match ?x with _ => _ end) => destruct x
  end.

Lemma cycle_posts_shaped (env : cycle_env) : extends posts_shaped (cycle cfg env).
Proof.
  unfold cycle. apply extends_mbind_val.
  - unfold polling. repeat posts_step.
  - intros data tr tr' Hpoll. apply polling_shaped in Hpoll.
    apply extends_mbind; [| intros [|]; repeat posts_step].
    apply extends_try_except.
    + unfold reporting. repeat posts_step.
    + intros e. unfold recover. repeat posts_step.
Qed.

Lemma loop_posts_shaped (envs : list cycle_env) : extends posts_shaped (loop cfg envs).
Proof.
  induction envs as [| env rest IH]; cbn [loop].
  - apply extends_hang.
  - apply extends_mbind; [apply cycle_posts_shaped | intros [|]];
      [exact IH | apply extends_ret].
Qed.

Lemma start_posts_shaped (run : run_env) : extends posts_shaped (start cfg run).
Proof.
  unfold start. apply extends_mbind; [unfold setup; repeat posts_step | intros _].
  apply extends_try_except; [apply loop_posts_shaped | intros e].
  unfold on_interrupt. repeat posts_step.
Qed.

End Record.

(** X8: in every run of [start], whatever its outcome, every record that
    is posted has the same shape: the node identifier first, then one
    distance per ranger (two at most), then the five readings of the
    sensor bank. *)
Theorem posted_records_have_one_shape
  (cfg : Telemetry.config) (run : Telemetry.run_env)
  (r : Telemetry.res unit) (tr : list Telemetry.event) (data : list pyval) :
  Telemetry.start cfg run [] = (r, tr) ->
  In (Telemetry.Post data) tr ->
  List.length data
  = (1 + Nat.min 2 (List.length (Telemetry.distance_sensors cfg)) + 5)%nat
  /\ nth_error data 0 = Some (PInt (Telemetry.bot_id cfg)).
Proof.
  intros Hrun Hin.
  destruct (start_posts_shaped cfg run _ _ _ Hrun) as [evs [-> Hall]].
  cbn [app] in Hin. rewrite Forall_forall in Hall.
  exact (Hall _ Hin data eq_refl).
Qed.

Lemma posted_records_have_one_shape_witness :
  List.length [PInt 7; PInt 171; PInt 0; PInt 0; PInt 20; PInt 20; PInt 9580] = 7%nat
  /\ nth_error [PInt 7; PInt 171; PInt 0; PInt 0; PInt 20; PInt 20; PInt 9580] 0
     = Some (PInt 7).
Proof.
  refine (posted_records_have_one_shape Examples.node
            (Examples.run_of [Examples.pass false; Examples.pass true] true)
            _ _ _ eq_refl _).
  cbn. tauto.
Defined.

(** ** Recovery, pacing and release *)

Section Recovery.

Import Telemetry.
Local Open Scope tel_scope.

Lemma idle_trace (n : nat) (tr : list event) :
  idle n tr = (Val tt, tr ++ repeat Idle n).
Proof.
  revert tr. induction n as [| n IH]; intros tr; cbn [idle repeat].
  - unfold ret. now rewrite app_nil_r.
  - unfold mbind, emit. rewrite IH, <- app_assoc. reflexivity.
Qed.

(** An exception the inner [except] names comes after the post. *)
Lemma reporting_caught (env : cycle_env) (data : list pyval) (e : exn) (tr : list event) :
  report_exn env = Some e -> caught e = true ->
  reporting env data tr = (Exc e, tr ++ [Post data]).
Proof.
  rewrite reporting_eq. unfold report_exn.
  destruct (connected_before_post env).
  - destruct (post env) as [r | e0]; [| now intros [= ->]].
    destruct (json r) as [b | e0]; [| now intros [= ->]].
    destruct (endLoop b) as [stop | e0]; [discriminate | now intros [= ->]].
  - intros [= <-]. discriminate.
Qed.

Variable cfg : config.

(** One step of a proof about the events a statement adds; [tac] settles
    what is asked of an event. *)
Ltac events_step tac :=
  match goal with
  | |- forall _, _ => intro
  | |- extends _ (mbind _ _) => apply extends_mbind
  | |- extends _ (map_M _ _) => apply extends_map_M
  | |- extends _ (try_except _ _) => apply extends_try_except
  | |- extends _ (emit _) => apply extends_emit; tac
  | |- extends _ (lift _) => apply extends_lift
  | |- extends _ (ret _) => apply extends_ret
  | |- extends _ (raise _) => apply extends_raise
  | |- extends _ (wait _) => apply extends_wait; tac
  | |- extends _ (if ?b then _ else _) => destruct b
  | |- extends _ (match ?x with _ => _ end) => destruct x
  end.

Lemma cycle_front_no_sleep (env : cycle_env) :
  extends (fun ev => ev <> Sleep)
    (data <- polling cfg env ;;
     try_except (reporting env data)
       (fun e => if caught e then recover env ;; ret Continue else raise e)).
Proof.
  unfold polling, reporting, recover.
  repeat events_step ltac:(cbv beta; discriminate).
Qed.

End Recovery.

(** Sequencing of statements is associative. *)
Lemma mbind_assoc {A B C} (m : Telemetry.M A) (k : A -> Telemetry.M B)
  (h : B -> Telemetry.M C) (tr : list Telemetry.event) :
  Telemetry.mbind (Telemetry.mbind m k) h tr
  = Telemetry.mbind m (fun a => Telemetry.mbind (k a) h) tr.
Proof.
  unfold Telemetry.mbind. destruct (m tr) as [[a | e |] t]; reflexivity.
Qed.

(** X9: an exception the inner [except] names (IndexError, KeyError,
    OSError) is absorbed by the pass: after the post the pass goes on to
    the pacing sleep and the loop continues; [wlan.active(True)] and
    [wlan.connect] are called, and the link awaited, only when the link
    is found down. *)
Theorem caught_exception_is_absorbed
  (cfg : Telemetry.config) (env : Telemetry.cycle_env)
  (data : list pyval) (tr tr1 : list Telemetry.event) (e : exn) :
  Telemetry.polling cfg env tr = (Telemetry.Val data, tr1) ->
  Telemetry.report_exn env = Some e ->
  Telemetry.caught e = true ->
  Telemetry.sleep env = Ok tt ->
  (Telemetry.connected_after_error env = true ->
   Telemetry.cycle cfg env tr
   = (Telemetry.Val Telemetry.Continue,
      tr1 ++ [Telemetry.Post data; Telemetry.Sleep]))
  /\ (forall n,
        Telemetry.connected_after_error env = false ->
        Telemetry.reconnect env = Telemetry.Connected n ->
        Telemetry.cycle cfg env tr
        = (Telemetry.Val Telemetry.Continue,
           tr1 ++ [Telemetry.Post data; Telemetry.WlanActive true; Telemetry.WlanConnect]
               ++ repeat Telemetry.Idle n ++ [Telemetry.Sleep])).
Proof.
  intros Hpoll Hexn Hcaught Hsleep.
  assert (Hcyc : Telemetry.cycle cfg env tr =
                 match Telemetry.recover env (tr1 ++ [Telemetry.Post data]) with
                 | (Telemetry.Val _, t) => (Telemetry.Val Telemetry.Continue, t ++ [Telemetry.Sleep])
                 | (Telemetry.Exc e', t) => (Telemetry.Exc e', t)
                 | (Telemetry.Hang, t) => (Telemetry.Hang, t)
                 end).
  { unfold Telemetry.cycle, Telemetry.mbind at 1 2. rewrite Hpoll.
    unfold Telemetry.try_except.
    rewrite (reporting_caught env data e tr1 Hexn Hcaught), Hcaught.
    unfold Telemetry.mbind at 1.
    destruct (Telemetry.recover env (tr1 ++ [Telemetry.Post data])) as [[[] | e' |] t];
      try reflexivity.
    unfold Telemetry.ret at 1. unfold Telemetry.mbind, Telemetry.emit.
    rewrite Hsleep. reflexivity. }
  split.
  - intros Hup. rewrite Hcyc. unfold Telemetry.recover. rewrite Hup. cbn [negb].
    unfold Telemetry.ret. rewrite <- app_assoc. reflexivity.
  - intros n Hdown Hwait. rewrite Hcyc. unfold Telemetry.recover.
    rewrite Hdown, Hwait. cbn [negb Telemetry.wait].
    unfold Telemetry.mbind, Telemetry.emit. rewrite idle_trace.
    rewrite <- !app_assoc. reflexivity.
Qed.

Lemma caught_exception_is_absorbed_witness :
  Telemetry.cycle Examples.node Scenarios.reply_without_flag []
  = (Telemetry.Val Telemetry.Continue,
     [Telemetry.Measure 0; Telemetry.ReadBank]
     ++ [Telemetry.Post Scenarios.record; Telemetry.WlanActive true; Telemetry.WlanConnect]
     ++ repeat Telemetry.Idle 2 ++ [Telemetry.Sleep]).
Proof.
  exact (proj2 (caught_exception_is_absorbed Examples.node Scenarios.reply_without_flag
                  Scenarios.record [] [Telemetry.Measure 0; Telemetry.ReadBank] KeyError
                  eq_refl eq_refl eq_refl eq_refl) 2%nat eq_refl eq_refl).
Defined.

(** X10: pacing: a pass that lets the loop continue ends with
    [time.sleep(0.1)], called once; the pass that breaks out of the loop
    does not sleep. *)
Theorem pass_sleeps_once_unless_break
  (cfg : Telemetry.config) (env : Telemetry.cycle_env)
  (c : Telemetry.ctl) (tr tr' : list Telemetry.event) :
  Telemetry.cycle cfg env tr = (Telemetry.Val c, tr') ->
  exists evs,
    Forall (fun ev => ev <> Telemetry.Sleep) evs
    /\ tr' = tr ++ evs ++ match c with
                          | Telemetry.Continue => [Telemetry.Sleep]
                          | Telemetry.Break => []
                          end.
Proof.
  intros H.
  assert (Hsplit : Telemetry.cycle cfg env tr =
                   Telemetry.mbind
                     (Telemetry.mbind (Telemetry.polling cfg env) (fun data =>
                        Telemetry.try_except (Telemetry.reporting env data)
                          (fun e => if Telemetry.caught e
                                    then Telemetry.mbind (Telemetry.recover env)
                                           (fun _ => Telemetry.ret Telemetry.Continue)
                                    else Telemetry.raise e)))
                     (fun c0 => match c0 with
                                | Telemetry.Break => Telemetry.ret Telemetry.Break
                                | Telemetry.Continue =>
                                    Telemetry.mbind (Telemetry.emit Telemetry.Sleep) (fun _ =>
                                    Telemetry.mbind (Telemetry.lift (Telemetry.sleep env)) (fun _ =>
                                    Telemetry.ret Telemetry.Continue))
                                end) tr).
  { unfold Telemetry.cycle. symmetry. apply mbind_assoc. }
  rewrite Hsplit in H. unfold Telemetry.mbind at 1 in H.
  match type of H with
  | context [let (_, _) := ?front tr in _] =>
      destruct (front tr) as [[c0 | e |] t1] eqn:Ef; try discriminate
  end.
  destruct (cycle_front_no_sleep cfg env _ _ _ Ef) as [evs [-> Hall]].
  exists evs. split; [exact Hall |].
  destruct c0.
  - unfold Telemetry.mbind, Telemetry.emit in H.
    destruct (Telemetry.sleep env) as [[] | e]; cbn in H; [| discriminate].
    injection H as <- <-. now rewrite app_assoc.
  - injection H as <- <-. now rewrite app_nil_r.
Qed.

Lemma pass_sleeps_once_unless_break_witness :
  exists evs,
    Forall (fun ev => ev <> Telemetry.Sleep) evs
    /\ snd (Telemetry.cycle Examples.node (Examples.pass false) []) = [] ++ evs ++ [Telemetry.Sleep].
Proof.
  exact (pass_sleeps_once_unless_break Examples.node (Examples.pass false)
           Telemetry.Continue [] _ eq_refl).
Defined.

(** X11: in every run of [start], whatever its outcome, the link is
    released at most once and only as the very last thing: either
    [wlan.disconnect()] and [wlan.active(False)] are never called, or
    [start] returns and the two calls, in that order, end the trace. *)
Theorem release_only_at_the_end
  (cfg : Telemetry.config) (run : Telemetry.run_env)
  (r : Telemetry.res unit) (tr : list Telemetry.event) :
  Telemetry.start cfg run [] = (r, tr) ->
  (Telemetry.count Telemetry.is_disconnect tr = 0%nat
   /\ Telemetry.count Telemetry.is_deactivate tr = 0%nat)
  \/ (r = Telemetry.Val tt
      /\ exists tr1,
           tr = tr1 ++ [Telemetry.WlanDisconnect; Telemetry.WlanActive false]
           /\ Telemetry.count Telemetry.is_disconnect tr1 = 0%nat
           /\ Telemetry.count Telemetry.is_deactivate tr1 = 0%nat).
Proof.
  intros H. unfold Telemetry.start, Telemetry.mbind in H.
  destruct (Telemetry.setup run []) as [[[] | e |] tr0] eqn:Es;
    destruct (setup_keeps_link run _ _ _ Es) as [evs0 [E0 F0]];
    cbn [app] in E0; subst tr0;
    destruct (count_keeps_link _ F0) as [D0 A0].
  - unfold Telemetry.try_except in H.
    destruct (Telemetry.loop cfg (Telemetry.script run) evs0) as [[[] | e |] tr1] eqn:El;
      destruct (loop_keeps_link cfg _ _ _ _ El) as [evs1 [E1 F1]]; subst tr1;
      destruct (count_keeps_link _ F1) as [D1 A1].
    + injection H as <- <-. left. rewrite !count_app. lia.
    + destruct e; cbn [Telemetry.on_interrupt] in H;
        try (injection H as <- <-; left; rewrite !count_app; lia).
      destruct (Telemetry.connected_at_interrupt run).
      * unfold Telemetry.mbind, Telemetry.emit in H. injection H as <- <-.
        right. split; [reflexivity |]. exists (evs0 ++ evs1).
        rewrite <- !app_assoc. cbn [app]. rewrite !count_app. repeat split; lia.
      * injection H as <- <-. left. rewrite !count_app. lia.
    + injection H as <- <-. left. rewrite !count_app. lia.
  - injection H as <- <-. left. split; assumption.
  - injection H as <- <-. left. split; assumption.
Qed.

Lemma release_only_at_the_end_witness :
  (Telemetry.count Telemetry.is_disconnect
     (snd (Telemetry.start Examples.node
             (Examples.run_of [Examples.pass false; Examples.interrupted_sleep] true) []))
   = 0%nat
   /\ Telemetry.count Telemetry.is_deactivate
        (snd (Telemetry.start Examples.node
                (Examples.run_of [Examples.pass false; Examples.interrupted_sleep] true) []))
      = 0%nat)
  \/ (Telemetry.Val tt = Telemetry.Val tt
      /\ exists tr1,
           snd (Telemetry.start Examples.node
                  (Examples.run_of [Examples.pass false; Examples.interrupted_sleep] true) [])
           = tr1 ++ [Telemetry.WlanDisconnect; Telemetry.WlanActive false]
           /\ Telemetry.count Telemetry.is_disconnect tr1 = 0%nat
           /\ Telemetry.count Telemetry.is_deactivate tr1 = 0%nat).
Proof.
  exact (release_only_at_the_end Examples.node
           (Examples.run_of [Examples.pass false; Examples.interrupted_sleep] true)
           _ _ eq_refl).
Defined.

(** X12: the first wait for the link (lines 183-184) is outside the
    [try]: a console interrupt during it is not handled, [start] is left
    by [KeyboardInterrupt] before any sensor is read, and the link is not
    released. *)
Theorem interrupt_before_the_loop
  (cfg : Telemetry.config) (run : Telemetry.run_env) (n : nat) :
  Telemetry.initial_wait run = Telemetry.Interrupted n ->
  Telemetry.start cfg run []
  = (Telemetry.Exc KeyboardInterrupt,
     [Telemetry.WlanActive true; Telemetry.WlanConnect] ++ repeat Telemetry.Idle n).
Proof.
  intros Hw. unfold Telemetry.start, Telemetry.setup. rewrite Hw.
  cbn [Telemetry.wait]. unfold Telemetry.mbind, Telemetry.emit.
  rewrite idle_trace. reflexivity.
Qed.

Lemma interrupt_before_the_loop_witness :
  Telemetry.start Examples.node
    {| Telemetry.initial_wait := Telemetry.Interrupted 3;
       Telemetry.script := [Examples.pass true];
       Telemetry.connected_at_interrupt := true |} []
  = (Telemetry.Exc KeyboardInterrupt,
     [Telemetry.WlanActive true; Telemetry.WlanConnect] ++ repeat Telemetry.Idle 3).
Proof.
  exact (interrupt_before_the_loop Examples.node
           {| Telemetry.initial_wait := Telemetry.Interrupted 3;
              Telemetry.script := [Examples.pass true];
              Telemetry.connected_at_interrupt := true |} 3%nat eq_refl).
Defined.

(** ** Reading config.txt *)

Section Split.

Import Config.
Open Scope string_scope.

Lemma is_token_no_space (s : string) : is_token s = true -> no_space s = true.
Proof. destruct s; [discriminate | trivial]. Qed.

(** [split] returns tokens: none is empty, none holds whitespace. *)
Lemma split_tokens (s : string) : Forall (fun t => is_token t = true) (split s).
Proof.
  induction s as [| c rest IH]; cbn [split]; [constructor |].
  destruct (isspace c) eqn:Ec; [exact IH |].
  destruct rest as [| c' rest'].
  - constructor; [| constructor]. cbn. now rewrite Ec.
  - destruct (isspace c') eqn:Ec'.
    + constructor; [| exact IH]. cbn. now rewrite Ec.
    + destruct (split (String c' rest')) as [| tok toks].
      * constructor; [| constructor]. cbn. now rewrite Ec.
      * inversion IH as [| ? ? Htok Htoks]; subst.
        constructor; [| exact Htoks].
        cbn [is_token no_space]. rewrite Ec. cbn [negb andb].
        now apply is_token_no_space.
Qed.

Lemma split_blank (s : string) : blank s = true -> split s = [].
Proof.
  induction s as [| c rest IH]; cbn [blank split]; [reflexivity |].
  intros [Hc Hrest]%andb_prop. rewrite Hc. now apply IH.
Qed.

(** A token in front of the end of the line or of whitespace is the
    first word. *)
Lemma split_token_app (tok s : string) :
  is_token tok = true ->
  (s = "" \/ exists c r, s = String c r /\ isspace c = true) ->
  split (tok ++ s) = tok :: split s.
Proof.
  intros Htok Hs. induction tok as [| c t IH]; [discriminate |].
  cbn [is_token no_space] in Htok. apply andb_prop in Htok as [Hc Ht].
  apply negb_true_iff in Hc.
  destruct t as [| c2 t2].
  - cbn [append split]. rewrite Hc.
    destruct Hs as [-> | [c' [r [-> Hc']]]]; [reflexivity |].
    rewrite Hc'. reflexivity.
  - assert (Hc2 : isspace c2 = false).
    { cbn [no_space] in Ht. apply andb_prop in Ht as [Hc2 _].
      now apply negb_true_iff in Hc2. }
    change (String c (String c2 t2) ++ s) with (String c (String c2 t2 ++ s)).
    cbn [split]. rewrite Hc.
    change (String c2 t2 ++ s) with (String c2 (t2 ++ s)) at 1.
    cbv iota. rewrite Hc2.
    change (String c2 (t2 ++ s)) with (String c2 t2 ++ s).
    rewrite IH by exact Ht. reflexivity.
Qed.

(** Joining tokens with single spaces and splitting again gives the
    tokens back. *)
Lemma split_concat (toks : list string) :
  Forall (fun t => is_token t = true) toks ->
  split (String.concat " " toks) = toks.
Proof.
  induction 1 as [| x xs Hx Hxs IH]; [reflexivity |].
  destruct xs as [| y ys].
  - cbn [String.concat].
    assert (E : x ++ "" = x)
      by (clear; induction x as [| c x IHx]; cbn; [reflexivity | now rewrite IHx]).
    rewrite <- E at 1. rewrite split_token_app; [reflexivity | exact Hx | now left].
  - change (String.concat " " (x :: y :: ys))
      with (x ++ String " " (String.concat " " (y :: ys))).
    rewrite split_token_app; [| exact Hx | right; eauto].
    f_equal. cbn [split]. change (isspace " ") with true. cbv iota. exact IH.
Qed.

End Split.

Section Lines.

Import Config.
Open Scope string_scope.

Variable int : string -> result Z.
Variable int16 : string -> result Z.

Lemma named_key_false (key : string) :
  named_key key = false ->
  String.eqb key "id" = false /\ String.eqb key "wifi" = false
  /\ String.eqb key "w_pwd" = false /\ String.eqb key "aws_endp" = false
  /\ String.eqb key "scl" = false /\ String.eqb key "sda" = false.
Proof.
  unfold named_key. intros H.
  repeat (apply orb_false_iff in H as [H ?]). repeat split; assumption.
Qed.

Lemma dict_get_set_same {V} (d : dict V) (k : string) (v : V) :
  dict_get (dict_set k v d) k = Ok v.
Proof.
  induction d as [| [k' v'] d IH]; cbn [dict_set dict_get].
  - now rewrite String.eqb_refl.
  - destruct (String.eqb k' k) eqn:E; cbn [dict_get].
    + now rewrite String.eqb_refl.
    + rewrite E. exact IH.
Qed.

Lemma dict_get_set_other {V} (d : dict V) (k k0 : string) (v : V) :
  k0 <> k -> dict_get (dict_set k v d) k0 = dict_get d k0.
Proof.
  intros Hne. induction d as [| [k' v'] d IH]; cbn [dict_set dict_get].
  - now rewrite (proj2 (String.eqb_neq k k0)) by congruence.
  - destruct (String.eqb k' k) eqn:E; cbn [dict_get].
    + apply String.eqb_eq in E. subst k'.
      now rewrite (proj2 (String.eqb_neq k k0)) by congruence.
    + destruct (String.eqb k' k0); [reflexivity | exact IH].
Qed.

End Lines.

(** X13: the SSID and the password are stored as the words of the line
    after the key, joined by single spaces: leading, trailing and
    repeated whitespace is dropped, and splitting the stored value gives
    those words back. *)
Theorem credentials_are_normalised
  (int int16 : string -> result Z) (st : Config.state) (line : string)
  (rest : list string) :
  (Config.split line = "wifi"%string :: rest ->
   Config.process_line int int16 st line
   = Ok (Config.set_wifi_name (String.concat " " rest) st)
   /\ Config.split (String.concat " " rest) = rest)
  /\ (Config.split line = "w_pwd"%string :: rest ->
      Config.process_line int int16 st line
      = Ok (Config.set_wifi_pswd (String.concat " " rest) st)
      /\ Config.split (String.concat " " rest) = rest).
Proof.
  split; intros H; (split; [unfold Config.process_line; rewrite H; reflexivity |]);
    pose proof (split_tokens line) as Htok; rewrite H in Htok;
    inversion Htok; subst; now apply split_concat.
Qed.

(** X14: a line of whitespace only, and a line whose first word is none
    of the six named keys, does not start with "d" and does not start
    with "adc", leave the configuration as it is. *)
Theorem ignored_lines
  (int int16 : string -> result Z) (st : Config.state) (line : string) :
  (Config.blank line = true -> Config.process_line int int16 st line = Ok st)
  /\ (forall key rest,
        Config.split line = key :: rest ->
        Config.named_key key = false ->
        Config.first_char key <> Ok "d"%char ->
        String.prefix "adc" key = false ->
        Config.process_line int int16 st line = Ok st).
Proof.
  split.
  - intros Hb. unfold Config.process_line. now rewrite (split_blank line Hb).
  - intros key rest H Hn Hd Ha. unfold Config.process_line. rewrite H.
    destruct (named_key_false key Hn) as [E1 [E2 [E3 [E4 [E5 E6]]]]].
    rewrite E1, E2, E3, E4, E5, E6. cbn [orb].
    destruct key as [| c k]; cbn [Config.first_char bind].
    + pose proof (split_tokens line) as Htok. rewrite H in Htok.
      inversion Htok; subst. discriminate.
    + destruct (Ascii.eqb_spec c "d") as [-> | Hc]; [now elim Hd |].
      now rewrite Ha.
Qed.

(** X15: a line that is a key and nothing else: [id], [aws_endp], [scl]
    and [sda] raise [IndexError], and so does an "adc" key with fewer than
    two values; [wifi] and [w_pwd] store the empty string; a key that
    starts with "d" registers a ranger without pins. *)
Theorem key_without_value
  (int int16 : string -> result Z) (st : Config.state) (line key : string) :
  (Config.split line = [key] ->
   (key = "id" \/ key = "aws_endp" \/ key = "scl" \/ key = "sda")%string ->
   Config.process_line int int16 st line = Raise IndexError)
  /\ (Config.split line = ["wifi"%string] ->
      Config.process_line int int16 st line = Ok (Config.set_wifi_name "" st))
  /\ (Config.split line = ["w_pwd"%string] ->
      Config.process_line int int16 st line = Ok (Config.set_wifi_pswd "" st))
  /\ (forall k, Config.split line = [String "d" k] ->
        Config.process_line int int16 st line
        = Ok (Config.set_dist_sensor (String "d" k) [] st))
  /\ (forall k rest, Config.split line = String "a" (String "d" (String "c" k)) :: rest ->
        (List.length rest < 2)%nat ->
        Config.process_line int int16 st line = Raise IndexError).
Proof.
  split; [| split; [| split; [| split]]].
  - intros H [-> | [-> | [-> | ->]]]; unfold Config.process_line; rewrite H; reflexivity.
  - intros H. unfold Config.process_line. rewrite H. reflexivity.
  - intros H. unfold Config.process_line. rewrite H. reflexivity.
  - intros k H. unfold Config.process_line. rewrite H. reflexivity.
  - intros k rest H Hlen. unfold Config.process_line. rewrite H.
    destruct rest as [| a [| b rest]]; cbn [List.length] in Hlen; try lia.
    + cbn. destruct (ascii_dec "a" "a"), (ascii_dec "d" "d"), (ascii_dec "c" "c");
        try congruence. destruct k; reflexivity.
    + cbn. destruct (ascii_dec "a" "a"), (ascii_dec "d" "d"), (ascii_dec "c" "c");
        try congruence. destruct k; reflexivity.
Qed.

Lemma prefix_adc (key : string) :
  String.prefix "adc" key = true ->
  exists k, key = String "a" (String "d" (String "c" k)).
Proof.
  destruct key as [| c1 key]; cbn [String.prefix]; [intros H; discriminate H |].
  destruct (ascii_dec "a" c1) as [<- |]; [| intros H; discriminate H].
  destruct key as [| c2 key]; cbn [String.prefix]; [intros H; discriminate H |].
  destruct (ascii_dec "d" c2) as [<- |]; [| intros H; discriminate H].
  destruct key as [| c3 key]; cbn [String.prefix]; [intros H; discriminate H |].
  destruct (ascii_dec "c" c3) as [<- |]; [| intros H; discriminate H].
  intros _. eauto.
Qed.

(** X16: dispatch on the first word: every key that starts with "d"
    registers a ranger under that key with all the numbers of the line as
    its pins (none of the named keys starts with "d"); every key that
    starts with "adc" appends its second word as a layout and its third
    word, read in base 16, as an address, and ignores further words. *)
Theorem ranger_and_adc_lines
  (int int16 : string -> result Z) (st : Config.state) (line key : string)
  (rest : list string) :
  Config.split line = key :: rest ->
  (forall k, key = String "d" k ->
     Config.process_line int int16 st line
     = (pins <- Config.map_result int rest ;; Ok (Config.set_dist_sensor key pins st)))
  /\ (String.prefix "adc" key = true ->
      forall a b more, rest = a :: b :: more ->
        Config.process_line int int16 st line
        = (addr <- int16 b ;; Ok (Config.append_adc (a, addr) st))).
Proof.
  intros H. split.
  - intros k ->. unfold Config.process_line. rewrite H. reflexivity.
  - intros Hp a b more ->. apply prefix_adc in Hp as [k ->].
    unfold Config.process_line. rewrite H. cbn.
    destruct (ascii_dec "a" "a"), (ascii_dec "d" "d"), (ascii_dec "c" "c");
      try congruence.
    destruct k; reflexivity.
Qed.

Lemma ranger_and_adc_lines_witness :
  Config.process_line Numerals.int Numerals.int16 Config.initial "adc1 vvll 48 spare"
  = (addr <- Numerals.int16 "48" ;; Ok (Config.append_adc ("vvll"%string, addr) Config.initial)).
Proof.
  exact (proj2 (ranger_and_adc_lines Numerals.int Numerals.int16 Config.initial
                  "adc1 vvll 48 spare" "adc1" ["vvll"; "48"; "spare"]%string eq_refl)
           eq_refl "vvll"%string "48"%string ["spare"%string] eq_refl).
Defined.

(** X17: the lines are processed in order and the first line that raises
    ends the reading of the configuration with its exception: the lines
    after it are not looked at and no configuration results. *)
Theorem first_bad_line_aborts
  (int int16 : string -> result Z) (good rest : list string) (bad : string)
  (st : Config.state) (e : exn) :
  Config.process_config int int16 good = Ok st ->
  Config.process_line int int16 st bad = Raise e ->
  Config.process_config int int16 (good ++ bad :: rest) = Raise e.
Proof.
  unfold Config.process_config. intros Hgood Hbad.
  rewrite for_each_app, Hgood. cbn [bind AnalogReader.for_each].
  now rewrite Hbad.
Qed.

Lemma first_bad_line_aborts_witness :
  Config.process_config Numerals.int Numerals.int16
    (["id 7"%string; "scl 22"%string] ++ "sda"%string :: ["d1 5 18"%string])%list
  = Raise IndexError.
Proof.
  exact (first_bad_line_aborts Numerals.int Numerals.int16 ["id 7"; "scl 22"]%string
           ["d1 5 18"%string] "sda"%string _ IndexError eq_refl eq_refl).
Defined.

(** X18: an [scl] or [sda] line sets that pin to its first number, words
    after the number being ignored; the other pin and everything else in
    the configuration stay as they were, and a later line for the same
    pin replaces the earlier value. *)
Theorem pin_line_sets_one_pin
  (int int16 : string -> result Z) (st : Config.state) (line key a : string)
  (more : list string) (n : Z) :
  Config.split line = key :: a :: more ->
  (key = "scl" \/ key = "sda")%string ->
  int a = Ok n ->
  exists st',
    Config.process_line int int16 st line = Ok st'
    /\ Config.dict_get (Config.i2c_pins st') key = Ok n
    /\ (forall k, k <> key ->
          Config.dict_get (Config.i2c_pins st') k = Config.dict_get (Config.i2c_pins st) k)
    /\ Config.bot_id st' = Config.bot_id st
    /\ Config.wifi_name st' = Config.wifi_name st
    /\ Config.wifi_pswd st' = Config.wifi_pswd st
    /\ Config.aws_endpoint st' = Config.aws_endpoint st
    /\ Config.dist_sensors st' = Config.dist_sensors st
    /\ Config.adcs st' = Config.adcs st.
Proof.
  intros H Hkey Hint. exists (Config.set_i2c_pin key n st). split.
  - unfold Config.process_line. rewrite H.
    destruct Hkey as [-> | ->]; cbn; rewrite Hint; reflexivity.
  - cbn [Config.set_i2c_pin Config.i2c_pins Config.bot_id Config.wifi_name
           Config.wifi_pswd Config.aws_endpoint Config.dist_sensors Config.adcs].
    split; [apply dict_get_set_same |].
    split; [intros k Hk; now apply dict_get_set_other |].
    repeat split.
Qed.

Lemma pin_line_sets_one_pin_witness :
  exists st',
    Config.process_line Numerals.int Numerals.int16
      (Config.set_i2c_pin "sda" 4 (Config.set_i2c_pin "scl" 22 Config.initial))
      "sda 21 # data" = Ok st'
    /\ Config.dict_get (Config.i2c_pins st') "sda" = Ok 21
    /\ Config.dict_get (Config.i2c_pins st') "scl" = Ok 22.
Proof.
  destruct (pin_line_sets_one_pin Numerals.int Numerals.int16
              (Config.set_i2c_pin "sda" 4 (Config.set_i2c_pin "scl" 22 Config.initial))
              "sda 21 # data" "sda" "21" ["#"; "data"]%string 21
              eq_refl (or_intror eq_refl) eq_refl)
    as [st' [Hst [Hsda [Hother _]]]].
  exists st'. split; [exact Hst |]. split; [exact Hsda |].
  rewrite (Hother "scl"%string); [reflexivity | discriminate].
Defined.

(** ** Building the sensors from the configuration *)

Section Build.

Import Config.

Lemma unpack_pins_raises (pins : list Z) (e : exn) :
  unpack_pins pins = Raise e -> e = ValueError.
Proof.
  destruct pins as [| t [| e0 [| x rest]]]; cbn; congruence.
Qed.

Lemma unpack_pins_pair (pins : list Z) :
  List.length pins = 2%nat -> exists s, unpack_pins pins = Ok s.
Proof.
  destruct pins as [| t [| e0 [| x rest]]]; cbn; try discriminate. eauto.
Qed.

Lemma unpack_pins_not_pair (pins : list Z) :
  List.length pins <> 2%nat -> unpack_pins pins = Raise ValueError.
Proof.
  destruct pins as [| t [| e0 [| x rest]]]; cbn; try reflexivity. congruence.
Qed.

Lemma map_unpack_raises (vals : list (list Z)) (e : exn) :
  map_result unpack_pins vals = Raise e -> e = ValueError.
Proof.
  induction vals as [| p vals IH]; cbn [map_result]; [discriminate |].
  destruct (unpack_pins p) as [s | e0] eqn:E; cbn [bind].
  - destruct (map_result unpack_pins vals) as [ss | e1]; cbn [bind]; [discriminate |].
    intros [= <-]. now apply IH.
  - intros [= <-]. eapply unpack_pins_raises; eassumption.
Qed.

Lemma map_unpack_pairs (vals : list (list Z)) :
  Forall (fun p => List.length p = 2%nat) vals ->
  exists ss, map_result unpack_pins vals = Ok ss /\ List.length ss = List.length vals.
Proof.
  induction 1 as [| p vals Hp _ [ss [IH Hlen]]]; cbn [map_result].
  - exists []. split; reflexivity.
  - destruct (unpack_pins_pair p Hp) as [s ->]. cbn [bind]. rewrite IH. cbn [bind].
    exists (s :: ss). split; [reflexivity | cbn; now rewrite Hlen].
Qed.

Lemma map_unpack_not_pairs (vals : list (list Z)) :
  Exists (fun p => List.length p <> 2%nat) vals ->
  map_result unpack_pins vals = Raise ValueError.
Proof.
  induction 1 as [p vals Hp | p vals _ IH]; cbn [map_result].
  - now rewrite (unpack_pins_not_pair p Hp).
  - destruct (unpack_pins p) as [s | e] eqn:E; cbn [bind].
    + now rewrite IH.
    + f_equal. eapply unpack_pins_raises; eassumption.
Qed.

Lemma dict_get_raises {V} (d : dict V) (k : string) (e : exn) :
  dict_get d k = Raise e -> e = KeyError.
Proof.
  induction d as [| [k' v] d IH]; cbn [dict_get]; [congruence |].
  destruct (String.eqb k' k); [discriminate | exact IH].
Qed.

(** [build] raises [KeyError], [IndexError] or [ValueError] only. *)
Lemma build_raises (st : state) (e : exn) :
  build st = Raise e -> e = KeyError \/ e = IndexError \/ e = ValueError.
Proof.
  unfold build.
  destruct (dict_get (i2c_pins st) "sda") as [sda | e0] eqn:E1; cbn [bind];
    [| intros [= <-]; left; eapply dict_get_raises; eassumption].
  destruct (dict_get (i2c_pins st) "scl") as [scl | e0] eqn:E2; cbn [bind];
    [| intros [= <-]; left; eapply dict_get_raises; eassumption].
  unfold index.
  destruct (nth_error (adcs st) 0) as [a0 |]; cbn [bind]; [| intros [= <-]; auto].
  destruct (nth_error (adcs st) 1) as [a1 |]; cbn [bind]; [| intros [= <-]; auto].
  destruct (map_result unpack_pins (dict_values (dist_sensors st))) as [ss | e0] eqn:E3;
    cbn [bind]; [discriminate |].
  intros [= <-]. right; right. eapply map_unpack_raises; eassumption.
Qed.

End Build.

(** X19: what [build] needs of the configuration: without an [sda] or an
    [scl] pin it raises [KeyError]; with the pins but fewer than two adc
    lines, [IndexError]; with those but a ranger entry that is not
    exactly two pins, [ValueError]; otherwise it returns the node, whose
    layout is the first adc line's layout followed by the second's
    (further adc lines are not used) and which has one ranger per entry. *)
Theorem build_requirements (st : Config.state) :
  (Config.dict_get (Config.i2c_pins st) "sda" = Raise KeyError ->
   Config.build st = Raise KeyError)
  /\ (forall sda,
        Config.dict_get (Config.i2c_pins st) "sda" = Ok sda ->
        Config.dict_get (Config.i2c_pins st) "scl" = Raise KeyError ->
        Config.build st = Raise KeyError)
  /\ (forall sda scl,
        Config.dict_get (Config.i2c_pins st) "sda" = Ok sda ->
        Config.dict_get (Config.i2c_pins st) "scl" = Ok scl ->
        ((List.length (Config.adcs st) < 2)%nat -> Config.build st = Raise IndexError)
        /\ (forall l0 a0 l1 a1 more,
              Config.adcs st = (l0, a0) :: (l1, a1) :: more ->
              (Exists (fun p => List.length p <> 2%nat)
                 (Config.dict_values (Config.dist_sensors st)) ->
               Config.build st = Raise ValueError)
              /\ (Forall (fun p => List.length p = 2%nat)
                    (Config.dict_values (Config.dist_sensors st)) ->
                  exists cfg,
                    Config.build st = Ok cfg
                    /\ Telemetry.bot_id cfg = Config.bot_id st
                    /\ List.length (Telemetry.distance_sensors cfg)
                       = List.length (Config.dist_sensors st)
                    /\ Telemetry.ads cfg
                       = {| AnalogReader.addr_1 := a0; AnalogReader.addr_2 := a1;
                            AnalogReader.layout := list_ascii_of_string (l0 ++ l1) |}))).
Proof.
  split; [| split].
  - intros H. unfold Config.build. now rewrite H.
  - intros sda H1 H2. unfold Config.build. now rewrite H1, H2.
  - intros sda scl H1 H2. split.
    + intros Hlen. unfold Config.build. rewrite H1, H2. cbn [bind].
      destruct (Config.adcs st) as [| x [| y more]]; cbn in Hlen |- *; try reflexivity.
      lia.
    + intros l0 a0 l1 a1 more Hadcs. split.
      * intros Hbad. unfold Config.build. rewrite H1, H2, Hadcs. cbn [bind Config.index nth_error].
        now rewrite (map_unpack_not_pairs _ Hbad).
      * intros Hok. destruct (map_unpack_pairs _ Hok) as [ss [Hss Hlen]].
        unfold Config.build. rewrite H1, H2, Hadcs. cbn [bind Config.index nth_error].
        rewrite Hss. cbn [bind fst snd]. eexists. split; [reflexivity |].
        cbn [Telemetry.bot_id Telemetry.distance_sensors Telemetry.ads].
        split; [reflexivity |]. split; [| reflexivity].
        rewrite Hlen. unfold Config.dict_values. apply length_map.
Qed.

(** X20: [start] as a whole: when a line of config.txt raises, [start] is
    left by that exception before the link is touched; when the sensors
    cannot be built, the link has already been brought up and awaited,
    and [start] is left by the exception of [build] without releasing it;
    with a configuration that builds, the run is the run of the loop on
    the node built. *)
Theorem start_from_config
  (int int16 : string -> result Z) (lines : list string) (run : Telemetry.run_env) :
  (forall e,
      Config.process_config int int16 lines = Raise e ->
      Config.start int int16 lines run [] = (Telemetry.Exc e, []))
  /\ (forall st e tr0,
        Config.process_config int int16 lines = Ok st ->
        Config.build st = Raise e ->
        Telemetry.setup run [] = (Telemetry.Val tt, tr0) ->
        Config.start int int16 lines run [] = (Telemetry.Exc e, tr0))
  /\ (forall st cfg,
        Config.process_config int int16 lines = Ok st ->
        Config.build st = Ok cfg ->
        Config.start int int16 lines run [] = Telemetry.start cfg run []).
Proof.
  split; [| split].
  - intros e H. unfold Config.start. now rewrite H.
  - intros st e tr0 Hcfg Hbuild Hsetup. unfold Config.start. rewrite Hcfg.
    cbn [Telemetry.lift]. unfold Telemetry.mbind at 1, Telemetry.ret.
    unfold Telemetry.mbind at 1. rewrite Hsetup.
    unfold Telemetry.try_except, Telemetry.mbind. rewrite Hbuild.
    cbn [Telemetry.lift]. unfold Telemetry.raise.
    destruct (build_raises st e Hbuild) as [-> | [-> | ->]]; reflexivity.
  - intros st cfg Hcfg Hbuild. unfold Config.start, Telemetry.start. rewrite Hcfg.
    cbn [Telemetry.lift]. unfold Telemetry.mbind at 1, Telemetry.ret.
    unfold Telemetry.mbind at 1 3.
    destruct (Telemetry.setup run []) as [[[] | e |] tr0]; try reflexivity.
    unfold Telemetry.try_except, Telemetry.mbind. rewrite Hbuild. reflexivity.
Qed.

Lemma start_from_config_witness :
  Config.start Numerals.int Numerals.int16 Numerals.config_txt
    (Examples.run_of [Examples.pass false; Examples.pass true] true) []
  = Telemetry.start Examples.node
      (Examples.run_of [Examples.pass false; Examples.pass true] true) [].
Proof.
  exact (proj2 (proj2 (start_from_config Numerals.int Numerals.int16 Numerals.config_txt
                         (Examples.run_of [Examples.pass false; Examples.pass true] true)))
           _ Examples.node eq_refl eq_refl).
Defined.

(** ** Numerals *)

Lemma numerals_read :
  Numerals.int "7" = Ok 7 /\ Numerals.int "-12" = Ok (-12)
  /\ Numerals.int "+5" = Ok 5 /\ Numerals.int "1_000" = Ok 1000
  /\ Numerals.int16 "48" = Ok 72 /\ Numerals.int16 "0x48" = Ok 72
  /\ Numerals.int16 "0X_4a" = Ok 74
  /\ Numerals.int "0x48" = Raise ValueError /\ Numerals.int "" = Raise ValueError
  /\ Numerals.int "1__0" = Raise ValueError /\ Numerals.int "5_" = Raise ValueError
  /\ Numerals.int "-" = Raise ValueError /\ Numerals.int16 "0x" = Raise ValueError
  /\ Numerals.int "vvll" = Raise ValueError.
Proof. repeat split. Qed.

(** ** The configuration of [Numerals.config_txt] *)

Example config_txt_is_read :
  Config.process_config Numerals.int Numerals.int16 Numerals.config_txt
  = Ok Numerals.configured.
Proof. reflexivity. Qed.

Lemma credentials_are_normalised_witness :
  Config.process_line Numerals.int Numerals.int16 Config.initial "wifi  My   Net "
  = Ok (Config.set_wifi_name "My Net" Config.initial)
  /\ Config.split "My Net" = ["My"; "Net"]%string.
Proof.
  exact (proj1 (credentials_are_normalised Numerals.int Numerals.int16 Config.initial
                  "wifi  My   Net " ["My"; "Net"]%string) eq_refl).
Defined.

Lemma ignored_lines_witness :
  Config.process_line Numerals.int Numerals.int16 Numerals.configured "# ranger pins"
  = Ok Numerals.configured.
Proof.
  refine (proj2 (ignored_lines Numerals.int Numerals.int16 Numerals.configured
                   "# ranger pins") "#"%string ["ranger"; "pins"]%string
            eq_refl eq_refl _ eq_refl).
  discriminate.
Defined.

Lemma build_requirements_witness :
  exists cfg,
    Config.build Numerals.configured = Ok cfg
    /\ Telemetry.bot_id cfg = 7
    /\ List.length (Telemetry.distance_sensors cfg) = 1%nat
    /\ Telemetry.ads cfg = Examples.bank.
Proof.
  refine (proj2 (proj2 (proj2 (proj2 (build_requirements Numerals.configured))
                          21 22 eq_refl eq_refl)
                   "vvll"%string 72 "____"%string 73 [] eq_refl) _).
  repeat constructor.
Defined.

(** ** What the loop's fixed order transmits *)

(** X21: with the order "vvll_" of line 195 the bank part of the record is
    the first two voltage readings, the first two light readings and the
    first generic reading, in that order, each 0.0 when the layout has no
    such channel; readings beyond those are read but not transmitted. *)
Theorem transmitted_readings (self : AnalogReader.t) (hw : AnalogReader.adc_oracle) :
  AnalogReader.bus_faults_only hw ->
  exists q,
    AnalogReader.read_queues self hw = Ok q
    /\ AnalogReader.read_sensor_values self hw Telemetry.vvll_
       = Ok [nth 0 (AnalogReader.voltage q) (PFloat 0);
             nth 1 (AnalogReader.voltage q) (PFloat 0);
             nth 0 (AnalogReader.light q) (PFloat 0);
             nth 1 (AnalogReader.light q) (PFloat 0);
             nth 0 (AnalogReader.other q) (PFloat 0)].
Proof.
  intros Hbus. destruct (read_queues_spec hw Hbus self) as [q [Hq _]].
  exists q. split; [exact Hq |].
  unfold AnalogReader.read_sensor_values. rewrite Hq. cbn [bind].
  rewrite fold_emit. cbn [app]. destruct q as [l v o].
  cbn [AnalogReader.light AnalogReader.voltage AnalogReader.other].
  destruct v as [| v0 [| v1 v]], l as [| l0 [| l1 l]], o as [| o0 o]; reflexivity.
Qed.

Lemma transmitted_readings_witness :
  exists q,
    AnalogReader.read_queues Examples.bank Examples.one_fault = Ok q
    /\ AnalogReader.read_sensor_values Examples.bank Examples.one_fault Telemetry.vvll_
       = Ok [nth 0 (AnalogReader.voltage q) (PFloat 0);
             nth 1 (AnalogReader.voltage q) (PFloat 0);
             nth 0 (AnalogReader.light q) (PFloat 0);
             nth 1 (AnalogReader.light q) (PFloat 0);
             nth 0 (AnalogReader.other q) (PFloat 0)].
Proof.
  exact (transmitted_readings Examples.bank Examples.one_fault
           ltac:(one_fault_only_bus_faults)).
Defined.

(** ** Rangers are keyed by the first word of their line *)

Lemma dict_set_length {V} (d : Config.dict V) (k : string) (v : V) :
  List.length (Config.dict_set k v d)
  = match Config.dict_get d k with
    | Ok _ => List.length d
    | Raise _ => S (List.length d)
    end.
Proof.
  induction d as [| [k' v'] d IH]; cbn [Config.dict_set Config.dict_get]; [reflexivity |].
  destruct (String.eqb k' k); cbn [List.length]; [reflexivity |].
  rewrite IH. destruct (Config.dict_get d k); reflexivity.
Qed.

(** X22: a ranger line whose key is already registered replaces the pins
    of that ranger and adds none; a line with a new key adds one ranger;
    the entries of the other keys are kept. *)
Theorem ranger_lines_are_keyed
  (int int16 : string -> result Z) (st : Config.state) (line k : string)
  (rest : list string) (pins : list Z) :
  Config.split line = String "d" k :: rest ->
  Config.map_result int rest = Ok pins ->
  exists st',
    Config.process_line int int16 st line = Ok st'
    /\ Config.dict_get (Config.dist_sensors st') (String "d" k) = Ok pins
    /\ (forall k', k' <> String "d" k ->
          Config.dict_get (Config.dist_sensors st') k'
          = Config.dict_get (Config.dist_sensors st) k')
    /\ List.length (Config.dist_sensors st')
       = match Config.dict_get (Config.dist_sensors st) (String "d" k) with
         | Ok _ => List.length (Config.dist_sensors st)
         | Raise _ => S (List.length (Config.dist_sensors st))
         end.
Proof.
  intros H Hpins. exists (Config.set_dist_sensor (String "d" k) pins st). split.
  - unfold Config.process_line. rewrite H. cbn. now rewrite Hpins.
  - cbn [Config.set_dist_sensor Config.dist_sensors].
    split; [apply dict_get_set_same |].
    split; [intros k' Hk'; now apply dict_get_set_other | apply dict_set_length].
Qed.

Lemma ranger_lines_are_keyed_witness :
  exists st',
    Config.process_line Numerals.int Numerals.int16 Numerals.configured "d1 12 14" = Ok st'
    /\ Config.dict_get (Config.dist_sensors st') "d1" = Ok [12; 14]
    /\ List.length (Config.dist_sensors st') = 1%nat.
Proof.
  destruct (ranger_lines_are_keyed Numerals.int Numerals.int16 Numerals.configured
              "d1 12 14" "1" ["12"; "14"]%string [12; 14] eq_refl eq_refl)
    as [st' [Hst [Hget [_ Hlen]]]].
  exists st'. split; [exact Hst |]. split; [exact Hget | exact Hlen].
Defined.
